(** * Geometry & Topology Store of plasticity: a shallow embedding

    The development follows two source files:
    - [GPUPicker] (the compact sub-entity identity encoding:
      [compactTopologyId], [extract]);
    - [GeometryDatabase] (the store: item records, topology index, hidden
      set, temporary objects, mementos).

    JavaScript numbers are modelled by [Z]; the 32-bit operators [<<], [>>],
    [&] and [|] convert their operands with ToInt32, which is written out
    below.  Thrown [Error]s are values of [Result].  The [Map] and [Set]
    objects of the store live in an explicit heap, so that two references to
    one object alias in the model exactly as they do in the program.

    An [async] method is run to its end: the store is written by one
    logical sequence of calls, and interleavings of several calls in flight
    are not modelled.  The kernel and the visual model are not part of the
    sources; the store is embedded over an interface to them. *)

From stdpp Require Import gmap strings list pretty.
From Stdlib Require Import ZArith QArith Lia Sorted.

Local Open Scope Z_scope.

(** ** Thrown errors *)

(** [new Error(message)]. *)
Record Error := mkError { message : string }.

(** The outcome of a call: a returned value or a thrown error. *)
Inductive Result (A : Type) : Type :=
| Ok (a : A)
| Throw (e : Error).

Arguments Ok {A} a.
Arguments Throw {A} e.

Definition throws {A} (r : Result A) : Prop :=
  exists e, r = Throw e.

(** ** JavaScript 32-bit integer operators *)

Module JS.

(** ToInt32: reduce modulo 2^32 into the signed range. *)
Definition to_int32 (z : Z) : Z := (z + 2 ^ 31) mod 2 ^ 32 - 2 ^ 31.

(** [a << n] *)
Definition shl (a n : Z) : Z := to_int32 (Z.shiftl (to_int32 a) (n mod 32)).

(** [a >> n] (sign-propagating) *)
Definition sar (a n : Z) : Z := Z.shiftr (to_int32 a) (n mod 32).

(** [a & b] *)
Definition and (a b : Z) : Z := Z.land (to_int32 a) (to_int32 b).

(** [a | b] *)
Definition or (a b : Z) : Z := Z.lor (to_int32 a) (to_int32 b).

(** [a ^ b] *)
Definition xor (a b : Z) : Z := Z.lxor (to_int32 a) (to_int32 b).

(** [a >>> n] (zero-filling): the operand is converted with ToUint32. *)
Definition shr (a n : Z) : Z := Z.shiftr (a mod 2 ^ 32) (n mod 32).

(** [Math.imul(a, b)]: the low 32 bits of the product, signed. *)
Definition imul (a b : Z) : Z := to_int32 (to_int32 a * to_int32 b).

End JS.

(** ** GPUPicker: the compact encoding of a face or an edge of a solid *)

Module GPUPicker.

(** The TypeScript union ['edge' | 'face']. *)
Inductive TopologyType := edge | face.

(** The number [extract] returns for a kind: edge is 0, face is 1. *)
Definition type_code (t : TopologyType) : Z :=
  match t with edge => 0 | face => 1 end.

(** [static compactTopologyId(type, parentId, index)] *)
Definition compactTopologyId (type : TopologyType) (parentId index : Z) : Result Z :=
  if parentId >? JS.shl 1 16 then Throw (mkError "precondition failure") else
  if index >? JS.shl 1 15 then Throw (mkError "precondition failure") else
  let parentId := JS.shl parentId 16 in
  let c := JS.shl (match type with edge => 0 | face => 1 end) 7 in
  let d := JS.or c (JS.and (JS.sar index 8) 0xef) in
  let e := JS.and (JS.sar index 0) 255 in
  let id := JS.or (JS.or parentId (JS.shl d 8)) e in
  Ok id.

(** The object literal [{ parentId, type, index }] returned by [extract]. *)
Record Extracted := mkExtracted { parentId : Z; type : Z; index : Z }.

(** [static extract(compact)] *)
Definition extract (compact : Z) : Extracted :=
  let parentId := JS.sar compact 16 in
  let compact := JS.and compact 0xffff in
  let type := JS.sar compact 15 in
  let compact := JS.and compact 0x7fff in
  let index := compact in
  {| parentId := parentId; type := type; index := index |}.

(** Encode, then decode: what a picking layer does with a sub-entity. *)
Definition roundtrip (t : TopologyType) (parentId index : Z) : Result Extracted :=
  match compactTopologyId t parentId index with
  | Ok id => Ok (extract id)
  | Throw e => Throw e
  end.

End GPUPicker.

(** ** JavaScript [Map] with number keys, in insertion order

    [GeometryDatabase.geometryModel] is iterated ([values()]) by [find] and
    [visibleObjects], so the order of its entries is observable: the map is
    an association list in insertion order.  Keys are compared with [=]
    (SameValueZero on integers). *)

Module JSMap.

Section JSMap.
Context {V : Type}.

Definition t : Type := list (Z * V).

(** [new Map()] *)
Definition empty : t := [].

(** [m.get(k)]: [None] is [undefined]. *)
Fixpoint get (k : Z) (m : t) : option V :=
  match m with
  | [] => None
  | (k', v) :: m' => if Z.eqb k' k then Some v else get k m'
  end.

(** [m.has(k)] *)
Definition has (k : Z) (m : t) : bool :=
  match get k m with Some _ => true | None => false end.

(** [m.set(k, v)]: an existing key keeps its place, a new key goes last. *)
Fixpoint set (k : Z) (v : V) (m : t) : t :=
  match m with
  | [] => [(k, v)]
  | (k', v') :: m' =>
      if Z.eqb k' k then (k, v) :: m' else (k', v') :: set k v m'
  end.

(** [m.delete(k)] *)
Fixpoint delete (k : Z) (m : t) : t :=
  match m with
  | [] => []
  | (k', v') :: m' =>
      if Z.eqb k' k then delete k m' else (k', v') :: delete k m'
  end.

(** [m.values()], as the list a [for ... of] loop visits. *)
Definition values (m : t) : list V := map snd m.

(** [m.keys()] *)
Definition keys (m : t) : list Z := map fst m.

(** [new Map(m)]: the entries of [m] are set one by one on a new map. *)
Definition copy (m : t) : t :=
  fold_left (fun acc kv => set (fst kv) (snd kv) acc) m empty.

End JSMap.

Arguments t : clear implicits.

End JSMap.

(** ** External collaborators

    The geometry kernel (c3d) and the material system are outside the
    store.  Their data is opaque to it: the store only passes it on. *)

Class Handles := {
  (** c3d.MeshBuffer: one polygon buffer of a tessellation *)
  MeshBuffer : Type;
  (** c3d.EdgeBuffer: one edge polyline of a tessellation *)
  EdgeBuffer : Type;
  (** c3d.TopologyItem: a kernel face or edge *)
  TopologyHandle : Type;
  (** c3d.Name: the stable name of a kernel edge *)
  Name : Type;
  (** THREE.Material *)
  Material : Type;
}.

(** ** The kernel interface the store calls *)

Module c3d.

(** Modelled from the spec: the kernel binding c3d is not under src/.
    [c3d.SimpleName] is a number. *)
Definition SimpleName : Type := Z.

(** Modelled from the spec: [c3d.SpaceType], with the three kinds the store
    switches on and every other kind as one. *)
Inductive SpaceType := SpaceInstance | PlaneInstance | Solid | OtherSpaceType.

Section Kernel.
Context `{Handles}.

(** Modelled from the spec: c3d.Mesh, the result of a tessellation, with
    the three methods the store calls on it. *)
Record Mesh := mkMesh {
  (** [GetEdges(outlinesOnly)]; [GetEdges()] passes [false] *)
  GetEdges : bool -> list EdgeBuffer;
  GetBuffers : list MeshBuffer;
  IsClosed : bool;
}.

(** Modelled from the spec: c3d.Item, with the methods the store calls on
    it.  [CreateMesh_async(stepData, note)] is called with
    [StepData(SpaceStep, sag)] and a fixed note, so it is a function of the
    sag; it may raise.  [GetFace] and [FindEdgeByName] are the methods of
    c3d.Solid ([None] is [null]); [obj instanceof c3d.Solid] is
    [IsA obj = Solid]. *)
Record Item := mkItem {
  IsA : SpaceType;
  CreateMesh_async : Q -> Result Mesh;
  GetFace : Z -> option TopologyHandle;
  FindEdgeByName : Name -> option TopologyHandle;
}.

End Kernel.

End c3d.

(** ** The visual model, as the store reads it *)

Module visual.

Section Visual.
Context `{Handles}.

(** Modelled from the spec: VisualModel is not under src/.  A face view
    is what [visual.Face.build(grid, id, material)] was given. *)
Record Face := mkFace {
  face_grid : MeshBuffer;
  face_parentId : c3d.SimpleName;
  face_material : Material;
}.

(** Modelled from the spec: an edge view is what
    [visual.CurveEdge.build(edge, id, material, occludedMaterial)] was given. *)
Record CurveEdge := mkCurveEdge {
  edge_buffer : EdgeBuffer;
  edge_parentId : c3d.SimpleName;
  edge_material : Material;
  edge_occludedMaterial : Material;
}.

(** Modelled from the spec: a curve segment is what
    [visual.CurveSegment.build(edge, material)] was given. *)
Record CurveSegment := mkCurveSegment {
  segment_buffer : EdgeBuffer;
  segment_material : Material;
}.

(** Modelled from the spec: a region is what
    [visual.Region.build(grid, material)] was given, one filled polygon
    buffer. *)
Record Region := mkRegion {
  region_grid : MeshBuffer;
  region_material : Material;
}.

(** Modelled from the spec: [visual.TopologyItem], a face or an edge of a
    solid. *)
Inductive TopologyItem :=
| AFace (f : Face)
| ACurveEdge (e : CurveEdge).

(** Modelled from the spec: one level of detail, as handed to a builder's
    [addLOD]. *)
Inductive Level :=
| CurveLevel (curve3D : list CurveSegment) (distance : Q)
| RegionLevel (region : Region) (distance : Q)
| SolidLevel (edges : list CurveEdge) (faces : list Face) (distance : Q).

(** Modelled from the spec: the three classes of [visual.Item]. *)
Inductive ItemClass := SpaceInstance | PlaneInstance | Solid.

(** Modelled from the spec: [SpaceInstanceBuilder], [PlaneInstanceBuilder]
    and [SolidBuilder], as the class of the item under construction and the
    levels added so far, in the order given.  The casts of [object2mesh] are
    unchecked, so a builder takes any level. *)
Record Builder := mkBuilder {
  builder_class : ItemClass;
  builder_levels : list Level;
}.

(** Modelled from the spec: [new visual.SolidBuilder()] and the like. *)
Definition newBuilder (c : ItemClass) : Builder :=
  {| builder_class := c; builder_levels := [] |}.

(** Modelled from the spec: [builder.addLOD(..., distance)]. *)
Definition addLOD (b : Builder) (l : Level) : Builder :=
  {| builder_class := builder_class b;
     builder_levels := builder_levels b ++ [l] |}.

(** Modelled from the spec: a [visual.Item]; [simpleName] is
    [userData.simpleName]. *)
Record Item := mkItem {
  simpleName : c3d.SimpleName;
  class : ItemClass;
  lods : list Level;
}.

(** Modelled from the spec: [builder.build()], followed by
    [result.userData.simpleName = id] of [meshes]. *)
Definition build (b : Builder) (id : c3d.SimpleName) : Item :=
  {| simpleName := id; class := builder_class b; lods := builder_levels b |}.

(** Modelled from the spec: the faces and edges of one level. *)
Definition levelTopology (l : Level) : list TopologyItem :=
  match l with
  | SolidLevel edges faces _ => map ACurveEdge edges ++ map AFace faces
  | _ => []
  end.

(** Modelled from the spec: THREE's [Object3D.traverse] is not under src/.
    It visits the item and each of its descendants once; the list holds
    those of them that are [visual.TopologyItem]s (the faces and edges of
    every level), which are the only ones the store's callbacks act on. *)
Definition traverse (v : Item) : list TopologyItem :=
  concat (map levelTopology (lods v)).

End Visual.

End visual.

(** What the store reads off a face or an edge view; VisualModel itself is
    not under src/, so the derivation of these from the arguments of
    [build] is left open. *)
Class VisualModel `{Handles} := {
  (** [face.simpleName] *)
  Face_simpleName : visual.Face -> string;
  (** [face.userData.index] *)
  Face_index : visual.Face -> Z;
  (** [edge.simpleName] *)
  CurveEdge_simpleName : visual.CurveEdge -> string;
  (** [edge.userData.name] *)
  CurveEdge_name : visual.CurveEdge -> Name;
}.

(** [t.simpleName] for a face or an edge. *)
Definition topology_simpleName `{VisualModel} (t : visual.TopologyItem) : string :=
  match t with
  | visual.AFace f => Face_simpleName f
  | visual.ACurveEdge e => CurveEdge_simpleName e
  end.

(** [MaterialDatabase], as [object2mesh] uses it.  The class under src/
    has no [lineDashed] and no [region], and what a material is does not
    matter to the store: the four methods are taken as given. *)
Record MaterialDatabase `{Handles} := mkMaterials {
  line : option c3d.Item -> Material;
  lineDashed : Material;
  region : Material;
  mesh : MeshBuffer -> bool -> Material;
}.

(** ** The store: GeometryDatabase *)

Module GeometryDatabase.

Section Store.
Context `{VisualModel}.

(** A reference to a [Map] or [Set] object: its index in the heap. *)
Definition loc : Type := nat.

(** [{ view: visual.Item, model: c3d.Item }] *)
Record ItemRecord := mkItemRecord {
  view : visual.Item;
  model : c3d.Item;
}.

(** [TopologyData = { model, view: Set<Face | Edge> }].  The object is never
    assigned to after its creation; its [view] is a reference to a set that
    [addTopologyItem] mutates. *)
Record TopologyData := mkTopologyData {
  topology_model : option TopologyHandle;
  topology_view : loc;
}.

(** The heap of the collections the store and its mementos refer to.
    - [geometryMaps]: the [Map<c3d.SimpleName, ItemRecord>] objects;
    - [topologyMaps]: the [Map<string, TopologyData>] objects (only [get],
      [set] and [delete] are used on them, so order is not kept);
    - [hiddenSets]: the [Set<c3d.SimpleName>] objects;
    - [viewSets]: the [Set<Face | Edge>] objects, in insertion order.  The
      views added are objects just built by [meshes], never one that is
      already in the set, so [add] appends. *)
Record Heap := mkHeap {
  geometryMaps : list (JSMap.t ItemRecord);
  topologyMaps : list (gmap string TopologyData);
  hiddenSets : list (gset Z);
  viewSets : list (list visual.TopologyItem);
}.

(** The notifications of [EditorSignals] the store dispatches. *)
Inductive Signal :=
| objectAdded (v : visual.Item)
| objectRemoved (v : visual.Item)
| sceneGraphChanged.

(** A [GeometryDatabase] object together with the heap.
    - [temporaryObjects]: the children of the [THREE.Scene], each with the
      identity of its object ([nextObject] numbers the objects created);
    - [geometryModel], [topologyModel], [hidden]: the three fields, which
      [restoreFromMemento] reassigns;
    - [dispatched]: the signals dispatched so far, oldest first. *)
Record Database := mkDatabase {
  materials : MaterialDatabase;
  temporaryObjects : list (nat * visual.Item);
  geometryModel : loc;
  topologyModel : loc;
  hidden : loc;
  counter : Z;
  heap : Heap;
  dispatched : list Signal;
  nextObject : nat;
}.

(** Modelled from the spec: History is not under src/.  A [GeometryMemento]
    holds the three collections handed to its constructor, read back as
    [m.geometryModel], [m.topologyModel] and [m.hidden]. *)
Record GeometryMemento := mkMemento {
  memento_geometryModel : loc;
  memento_topologyModel : loc;
  memento_hidden : loc;
}.

(** *** Heap access *)

Definition geometryAt (h : Heap) (l : loc) : JSMap.t ItemRecord :=
  default JSMap.empty (geometryMaps h !! l).

Definition topologyAt (h : Heap) (l : loc) : gmap string TopologyData :=
  default ∅ (topologyMaps h !! l).

Definition hiddenAt (h : Heap) (l : loc) : gset Z :=
  default ∅ (hiddenSets h !! l).

Definition viewsAt (h : Heap) (l : loc) : list visual.TopologyItem :=
  default [] (viewSets h !! l).

Definition setGeometryAt (l : loc) (m : JSMap.t ItemRecord) (h : Heap) : Heap :=
  {| geometryMaps := <[l := m]> (geometryMaps h);
     topologyMaps := topologyMaps h;
     hiddenSets := hiddenSets h;
     viewSets := viewSets h |}.

Definition setTopologyAt (l : loc) (m : gmap string TopologyData) (h : Heap) : Heap :=
  {| geometryMaps := geometryMaps h;
     topologyMaps := <[l := m]> (topologyMaps h);
     hiddenSets := hiddenSets h;
     viewSets := viewSets h |}.

Definition setHiddenAt (l : loc) (s : gset Z) (h : Heap) : Heap :=
  {| geometryMaps := geometryMaps h;
     topologyMaps := topologyMaps h;
     hiddenSets := <[l := s]> (hiddenSets h);
     viewSets := viewSets h |}.

Definition setViewsAt (l : loc) (s : list visual.TopologyItem) (h : Heap) : Heap :=
  {| geometryMaps := geometryMaps h;
     topologyMaps := topologyMaps h;
     hiddenSets := hiddenSets h;
     viewSets := <[l := s]> (viewSets h) |}.

(** Allocation: a new object is appended and its index returned. *)
Definition allocGeometry (m : JSMap.t ItemRecord) (h : Heap) : loc * Heap :=
  (length (geometryMaps h),
   {| geometryMaps := geometryMaps h ++ [m];
      topologyMaps := topologyMaps h;
      hiddenSets := hiddenSets h;
      viewSets := viewSets h |}).

Definition allocTopology (m : gmap string TopologyData) (h : Heap) : loc * Heap :=
  (length (topologyMaps h),
   {| geometryMaps := geometryMaps h;
      topologyMaps := topologyMaps h ++ [m];
      hiddenSets := hiddenSets h;
      viewSets := viewSets h |}).

Definition allocHidden (s : gset Z) (h : Heap) : loc * Heap :=
  (length (hiddenSets h),
   {| geometryMaps := geometryMaps h;
      topologyMaps := topologyMaps h;
      hiddenSets := hiddenSets h ++ [s];
      viewSets := viewSets h |}).

Definition allocViews (s : list visual.TopologyItem) (h : Heap) : loc * Heap :=
  (length (viewSets h),
   {| geometryMaps := geometryMaps h;
      topologyMaps := topologyMaps h;
      hiddenSets := hiddenSets h;
      viewSets := viewSets h ++ [s] |}).

(** *** Field updates of the database object *)

Definition withHeap (h : Heap) (d : Database) : Database :=
  {| materials := materials d;
     temporaryObjects := temporaryObjects d;
     geometryModel := geometryModel d;
     topologyModel := topologyModel d;
     hidden := hidden d;
     counter := counter d;
     heap := h;
     dispatched := dispatched d;
     nextObject := nextObject d |}.

Definition withCounter (c : Z) (d : Database) : Database :=
  {| materials := materials d;
     temporaryObjects := temporaryObjects d;
     geometryModel := geometryModel d;
     topologyModel := topologyModel d;
     hidden := hidden d;
     counter := c;
     heap := heap d;
     dispatched := dispatched d;
     nextObject := nextObject d |}.

Definition withTemporaryObjects (ts : list (nat * visual.Item)) (n : nat)
    (d : Database) : Database :=
  {| materials := materials d;
     temporaryObjects := ts;
     geometryModel := geometryModel d;
     topologyModel := topologyModel d;
     hidden := hidden d;
     counter := counter d;
     heap := heap d;
     dispatched := dispatched d;
     nextObject := n |}.

Definition withCollections (g t h : loc) (d : Database) : Database :=
  {| materials := materials d;
     temporaryObjects := temporaryObjects d;
     geometryModel := g;
     topologyModel := t;
     hidden := h;
     counter := counter d;
     heap := heap d;
     dispatched := dispatched d;
     nextObject := nextObject d |}.

(** [signal.dispatch(...)] *)
Definition dispatch (s : Signal) (d : Database) : Database :=
  {| materials := materials d;
     temporaryObjects := temporaryObjects d;
     geometryModel := geometryModel d;
     topologyModel := topologyModel d;
     hidden := hidden d;
     counter := counter d;
     heap := heap d;
     dispatched := dispatched d ++ [s];
     nextObject := nextObject d |}.

(** The live collections. *)
Definition liveGeometry (d : Database) : JSMap.t ItemRecord :=
  geometryAt (heap d) (geometryModel d).

Definition liveTopology (d : Database) : gmap string TopologyData :=
  topologyAt (heap d) (topologyModel d).

Definition liveHidden (d : Database) : gset Z :=
  hiddenAt (heap d) (hidden d).

(** [new GeometryDatabase(materials, signals)] *)
Definition new (materials : MaterialDatabase) : Database :=
  {| materials := materials;
     temporaryObjects := [];
     geometryModel := 0%nat;
     topologyModel := 0%nat;
     hidden := 0%nat;
     counter := 0;
     heap := {| geometryMaps := [JSMap.empty];
                topologyMaps := [∅];
                hiddenSets := [∅];
                viewSets := [] |};
     dispatched := [];
     nextObject := 0%nat |}.

(** *** Calls on the store: state passing with thrown errors

    A call takes the database and returns it with the outcome; what a call
    has written before it throws stays written. *)

Definition M (A : Type) : Type := Database -> Database * Result A.

Definition ret {A} (a : A) : M A := fun d => (d, Ok a).

Definition throw {A} (e : Error) : M A := fun d => (d, Throw e).

Definition bind {A B} (m : M A) (k : A -> M B) : M B :=
  fun d =>
    match m d with
    | (d', Ok a) => k a d'
    | (d', Throw e) => (d', Throw e)
    end.

Definition modify (f : Database -> Database) : M unit :=
  fun d => (f d, Ok tt).

Notation "x <- m ;; k" := (bind m (fun x => k))
  (at level 100, m at next level, right associativity).
Notation "m ;;; k" := (bind m (fun _ => k))
  (at level 100, right associativity).

(** [for (const x of xs) body(x)] *)
Fixpoint forEach {A} (body : A -> M unit) (xs : list A) : M unit :=
  match xs with
  | [] => ret tt
  | x :: xs' => body x ;;; forEach body xs'
  end.

(** The same loop for a computation outside the store, threading [acc]. *)
Fixpoint forEachResult {A B} (body : B -> A -> Result B) (acc : B) (xs : list A)
    : Result B :=
  match xs with
  | [] => Ok acc
  | x :: xs' =>
      match body acc x with
      | Ok acc' => forEachResult body acc' xs'
      | Throw e => Throw e
      end
  end.

(** *** The mesh builder *)

(** [const precision_distance = [[0.1, 50], [0.001, 5], [0.0001, 0.5]]] *)
Definition precision_distance : list (Q * Q) :=
  [(0.1, 50); (0.001, 5); (0.0001, 0.5)]%Q.

(** [private async object2mesh(builder, obj, id, sag, distance)]: the level
    is added to the builder, which is returned. *)
Definition object2mesh (mats : MaterialDatabase) (builder : visual.Builder)
    (obj : c3d.Item) (id : c3d.SimpleName) (sag distance : Q)
    : Result visual.Builder :=
  match c3d.CreateMesh_async obj sag with
  | Throw e => Throw e
  | Ok mesh_ =>
      match c3d.IsA obj with
      | c3d.SpaceInstance =>
          let edges := c3d.GetEdges mesh_ false in
          let material := line mats (Some obj) in
          let curve3D := map (fun edge => visual.mkCurveSegment edge material) edges in
          Ok (visual.addLOD builder (visual.CurveLevel curve3D distance))
      | c3d.PlaneInstance =>
          let grids := c3d.GetBuffers mesh_ in
          if negb (length grids =? 1)%nat
          then Throw (mkError "Invalid precondition")
          else
            match grids !! 0%nat with
            | Some grid =>
                let material := region mats in
                let region_ := visual.mkRegion grid material in
                Ok (visual.addLOD builder (visual.RegionLevel region_ distance))
            | None => Throw (mkError "TypeError")
            end
      | c3d.Solid =>
          let lineMaterial := line mats None in
          let polygons := c3d.GetEdges mesh_ true in
          let edges :=
            map (fun edge => visual.mkCurveEdge edge id lineMaterial (lineDashed mats))
                polygons in
          let grids := c3d.GetBuffers mesh_ in
          let faces :=
            map (fun grid => visual.mkFace grid id (mesh mats grid (c3d.IsClosed mesh_)))
                grids in
          Ok (visual.addLOD builder (visual.SolidLevel edges faces distance))
      | c3d.OtherSpaceType => Throw (mkError "type not yet supported")
      end
  end.

(** [private async meshes(obj, id, precision_distance)] *)
Definition meshes (mats : MaterialDatabase) (obj : c3d.Item) (id : c3d.SimpleName)
    (precision_distance : list (Q * Q)) : Result visual.Item :=
  match
    match c3d.IsA obj with
    | c3d.SpaceInstance => Ok (visual.newBuilder visual.SpaceInstance)
    | c3d.PlaneInstance => Ok (visual.newBuilder visual.PlaneInstance)
    | c3d.Solid => Ok (visual.newBuilder visual.Solid)
    | c3d.OtherSpaceType => Throw (mkError "type not yet supported")
    end
  with
  | Throw e => Throw e
  | Ok builder =>
      match
        forEachResult
          (fun builder pd => object2mesh mats builder obj id (fst pd) (snd pd))
          builder precision_distance
      with
      | Throw e => Throw e
      | Ok builder => Ok (visual.build builder id)
      end
  end.

(** *** The topology index *)

(** [private addTopologyItem(parent, t)] *)
Definition addTopologyItem (parent : c3d.Item) (t : visual.TopologyItem) : M unit :=
  match c3d.IsA parent with
  | c3d.Solid =>
      fun d =>
        match liveTopology d !! topology_simpleName t with
        | None =>
            let model :=
              match t with
              | visual.AFace f => c3d.GetFace parent (Face_index f)
              | visual.ACurveEdge e => c3d.FindEdgeByName parent (CurveEdge_name e)
              end in
            let '(views, h1) := allocViews [] (heap d) in
            let topologyData := {| topology_model := model; topology_view := views |} in
            let h2 :=
              setTopologyAt (topologyModel d)
                (<[topology_simpleName t := topologyData]> (topologyAt h1 (topologyModel d)))
                h1 in
            let h3 := setViewsAt views (viewsAt h2 views ++ [t]) h2 in
            (withHeap h3 d, Ok tt)
        | Some topologyData =>
            let views := topology_view topologyData in
            let h1 := setViewsAt views (viewsAt (heap d) views ++ [t]) (heap d) in
            (withHeap h1 d, Ok tt)
        end
  | _ => throw (mkError "invalid precondition")
  end.

(** [private removeTopologyItems(parent)] *)
Definition removeTopologyItems (parent : visual.Item) : M unit :=
  forEach
    (fun o =>
       modify (fun d =>
         withHeap
           (setTopologyAt (topologyModel d)
              (delete (topology_simpleName o) (liveTopology d)) (heap d))
           d))
    (visual.traverse parent).

(** *** Public operations *)

(** [async addItem(model)] *)
Definition addItem (model : c3d.Item) : M visual.Item :=
  current <- (fun d => (withCounter (counter d + 1) d, Ok (counter d))) ;;
  view <- (fun d => (d, meshes (materials d) model current precision_distance)) ;;
  modify (fun d =>
    withHeap
      (setGeometryAt (geometryModel d)
         (JSMap.set current {| view := view; model := model |} (liveGeometry d))
         (heap d))
      d) ;;;
  match visual.class view with
  | visual.Solid => forEach (addTopologyItem model) (visual.traverse view)
  | _ => ret tt
  end ;;;
  modify (dispatch (objectAdded view)) ;;;
  modify (dispatch sceneGraphChanged) ;;;
  ret view.

(** [removeItem(object)] *)
Definition removeItem (object : visual.Item) : M unit :=
  let simpleName := visual.simpleName object in
  modify (fun d =>
    withHeap
      (setGeometryAt (geometryModel d) (JSMap.delete simpleName (liveGeometry d))
         (heap d))
      d) ;;;
  removeTopologyItems object ;;;
  modify (fun d =>
    withHeap (setHiddenAt (hidden d) (liveHidden d ∖ {[simpleName]}) (heap d)) d) ;;;
  modify (dispatch (objectRemoved object)) ;;;
  modify (dispatch sceneGraphChanged).

(** [lookupItemById(id)] *)
Definition lookupItemById (id : c3d.SimpleName) : M ItemRecord :=
  fun d =>
    match JSMap.get id (liveGeometry d) with
    | None =>
        (d, Throw (mkError ("invalid precondition: object " +:+ pretty id +:+
                            " missing from geometry model")))
    | Some result => (d, Ok result)
    end.

(** [lookup(object)] *)
Definition lookup (object : visual.Item) : M c3d.Item :=
  r <- lookupItemById (visual.simpleName object) ;; ret (model r).

(** [lookupTopologyItemById(id)] *)
Definition lookupTopologyItemById (id : string) : M TopologyData :=
  fun d =>
    match liveTopology d !! id with
    | None =>
        (d, Throw (mkError ("invalid precondition: object " +:+ id +:+
                            " missing from topology model")))
    | Some result => (d, Ok result)
    end.

(** [visual instanceof klass], for the three classes of items. *)
Definition instanceof (v : visual.Item) (klass : visual.ItemClass) : bool :=
  match visual.class v, klass with
  | visual.SpaceInstance, visual.SpaceInstance
  | visual.PlaneInstance, visual.PlaneInstance
  | visual.Solid, visual.Solid => true
  | _, _ => false
  end.

(** [find(klass)] *)
Definition find (klass : visual.ItemClass) (d : Database) : list visual.Item :=
  List.filter (fun v => instanceof v klass)
    (map view (JSMap.values (liveGeometry d))).

(** [get visibleObjects()] *)
Definition visibleObjects (d : Database) : list visual.Item :=
  List.filter (fun v => negb (bool_decide (visual.simpleName v ∈ liveHidden d)))
    (map view (JSMap.values (liveGeometry d))).

(** [hide(item)] *)
Definition hide (item : visual.Item) : M unit :=
  modify (fun d =>
    withHeap
      (setHiddenAt (hidden d) (liveHidden d ∪ {[visual.simpleName item]}) (heap d)) d).

(** [unhide(item)] *)
Definition unhide (item : visual.Item) : M unit :=
  modify (fun d =>
    withHeap
      (setHiddenAt (hidden d) (liveHidden d ∖ {[visual.simpleName item]}) (heap d)) d).

(** [saveToMemento(registry)]: three new collections, each filled from the
    live one; the [TopologyData] values of the new topology map are the
    objects of the live map. *)
Definition saveToMemento : M GeometryMemento :=
  fun d =>
    let '(g, h1) := allocGeometry (JSMap.copy (liveGeometry d)) (heap d) in
    let '(t, h2) := allocTopology (liveTopology d) h1 in
    let '(s, h3) := allocHidden (liveHidden d) h2 in
    (withHeap h3 d,
     Ok {| memento_geometryModel := g;
           memento_topologyModel := t;
           memento_hidden := s |}).

(** [restoreFromMemento(m)]: the three fields are assigned the memento's
    collections themselves. *)
Definition restoreFromMemento (m : GeometryMemento) : M unit :=
  modify (withCollections (memento_geometryModel m) (memento_topologyModel m)
            (memento_hidden m)).

(** *** Temporary objects *)

(** The object [addTemporaryItem] returns: [cancel] and [commit] close over
    [mesh] (here with the identity of the object) and [object]. *)
Record TemporaryObject := mkTemporaryObject {
  temporary_mesh : nat * visual.Item;
  temporary_object : c3d.Item;
}.

(** [scene.remove(mesh)]: by object identity. *)
Definition sceneRemove (mesh_ : nat * visual.Item) (d : Database) : Database :=
  withTemporaryObjects
    (List.filter (fun o => negb (Nat.eqb (fst o) (fst mesh_))) (temporaryObjects d))
    (nextObject d) d.

(** [async addTemporaryItem(object)] *)
Definition addTemporaryItem (object : c3d.Item) : M TemporaryObject :=
  mesh_ <- (fun d => (d, meshes (materials d) object (-1) [(0.005, 1)]%Q)) ;;
  fun d =>
    let o := (nextObject d, mesh_) in
    (withTemporaryObjects (temporaryObjects d ++ [o]) (S (nextObject d)) d,
     Ok {| temporary_mesh := o; temporary_object := object |}).

(** [cancel()]; [mesh.dispose()] releases GPU resources only. *)
Definition cancel (t : TemporaryObject) : M unit :=
  modify (sceneRemove (temporary_mesh t)).

(** [commit()] *)
Definition commit (t : TemporaryObject) : M visual.Item :=
  modify (sceneRemove (temporary_mesh t)) ;;;
  addItem (temporary_object t).

(** *** A client of the store

    A client holds the database and what the store has returned to it: the
    views of the items it added, its temporary objects and its mementos.
    An operation names a temporary object or a memento by its position in
    these lists; [removeItem], [hide] and [unhide] take any view. *)

Record Session := mkSession {
  database : Database;
  added : list visual.Item;
  temporaries : list TemporaryObject;
  mementos : list GeometryMemento;
}.

Inductive Op :=
| AddItem (model : c3d.Item)
| AddTemporaryItem (object : c3d.Item)
| Cancel (n : nat)
| Commit (n : nat)
| RemoveItem (object : visual.Item)
| Hide (item : visual.Item)
| Unhide (item : visual.Item)
| SaveToMemento
| RestoreFromMemento (n : nat).

Definition withDatabase (d : Database) (s : Session) : Session :=
  {| database := d; added := added s;
     temporaries := temporaries s; mementos := mementos s |}.

(** The session after a call to [addItem] having returned [r]. *)
Definition afterAdd (s : Session) (r : Database * Result visual.Item) : Session :=
  match r with
  | (d, Ok v) =>
      {| database := d; added := added s ++ [v];
         temporaries := temporaries s; mementos := mementos s |}
  | (d, Throw _) => withDatabase d s
  end.

(** One operation; a thrown error is caught by the client, the database
    staying as the failed call left it. *)
Definition step (s : Session) (op : Op) : Session :=
  match op with
  | AddItem model => afterAdd s (addItem model (database s))
  | AddTemporaryItem object =>
      match addTemporaryItem object (database s) with
      | (d, Ok t) =>
          {| database := d; added := added s;
             temporaries := temporaries s ++ [t]; mementos := mementos s |}
      | (d, Throw _) => withDatabase d s
      end
  | Cancel n =>
      match temporaries s !! n with
      | Some t => withDatabase (fst (cancel t (database s))) s
      | None => s
      end
  | Commit n =>
      match temporaries s !! n with
      | Some t => afterAdd s (commit t (database s))
      | None => s
      end
  | RemoveItem object => withDatabase (fst (removeItem object (database s))) s
  | Hide item => withDatabase (fst (hide item (database s))) s
  | Unhide item => withDatabase (fst (unhide item (database s))) s
  | SaveToMemento =>
      match saveToMemento (database s) with
      | (d, Ok m) =>
          {| database := d; added := added s;
             temporaries := temporaries s; mementos := mementos s ++ [m] |}
      | (d, Throw _) => withDatabase d s
      end
  | RestoreFromMemento n =>
      match mementos s !! n with
      | Some m => withDatabase (fst (restoreFromMemento m (database s))) s
      | None => s
      end
  end.

Definition run (s : Session) (ops : list Op) : Session := fold_left step ops s.

(** A client of a new store. *)
Definition start (mats : MaterialDatabase) : Session :=
  {| database := new mats; added := []; temporaries := []; mementos := [] |}.

(** *** What is observed of a store and of a memento *)

(** A topology record as a reader sees it: the kernel handle and the
    contents of the view set. *)
Definition topologyRecord (h : Heap) (t : TopologyData)
    : option TopologyHandle * list visual.TopologyItem :=
  (topology_model t, viewsAt h (topology_view t)).

(** The contents of a memento: its item map, its topology map with the
    view sets, and its hidden set. *)
Definition mementoContents (h : Heap) (m : GeometryMemento)
    : JSMap.t ItemRecord
      * gmap string (option TopologyHandle * list visual.TopologyItem)
      * gset Z :=
  (geometryAt h (memento_geometryModel m),
   topologyRecord h <$> topologyAt h (memento_topologyModel m),
   hiddenAt h (memento_hidden m)).

(** The outcome of [lookupTopologyItemById], the view set read out. *)
Definition observedTopology (id : string) (d : Database)
    : Result (option TopologyHandle * list visual.TopologyItem) :=
  match snd (lookupTopologyItemById id d) with
  | Ok t => Ok (topologyRecord (heap d) t)
  | Throw e => Throw e
  end.

(** The Hidden Set is a subset of the key set of the Item Record map. *)
Definition hiddenWithinItems (d : Database) : Prop :=
  forall id, id ∈ liveHidden d -> JSMap.has id (liveGeometry d) = true.

(** *** Auxiliary notions used by the properties *)

(** A level of a region view: the one polygon buffer the kernel returned at
    this precision, filled with the region material. *)
Definition regionLevelOf (mats : MaterialDatabase) (obj : c3d.Item)
    (lvl : visual.Level) (pd : Q * Q) : Prop :=
  exists mesh_ grid,
    c3d.CreateMesh_async obj (fst pd) = Ok mesh_ /\
    c3d.GetBuffers mesh_ = [grid] /\
    lvl = visual.RegionLevel (visual.mkRegion grid (region mats)) (snd pd).

(** The names of the faces and edges of a view. *)
Definition topologyNames (ts : list visual.TopologyItem) : list string :=
  map topology_simpleName ts.

(** One step of [removeTopologyItems]. *)
Definition deleteTopology (o : visual.TopologyItem) (d : Database) : Database :=
  withHeap
    (setTopologyAt (topologyModel d) (delete (topology_simpleName o) (liveTopology d))
       (heap d)) d.

(** Two databases that differ at most in their topology maps and view
    sets: the fields, the item maps and the hidden sets are the same. *)
Definition sameItems (d d' : Database) : Prop :=
  materials d' = materials d /\
  temporaryObjects d' = temporaryObjects d /\
  geometryModel d' = geometryModel d /\
  topologyModel d' = topologyModel d /\
  hidden d' = hidden d /\
  counter d' = counter d /\
  dispatched d' = dispatched d /\
  nextObject d' = nextObject d /\
  geometryMaps (heap d') = geometryMaps (heap d) /\
  hiddenSets (heap d') = hiddenSets (heap d) /\
  length (topologyMaps (heap d')) = length (topologyMaps (heap d)).

(** The walk of [addItem] over the sub-entities of a new view. *)
Definition topologyWalk (model_ : c3d.Item) (view_ : visual.Item) : M unit :=
  match visual.class view_ with
  | visual.Solid => forEach (addTopologyItem model_) (visual.traverse view_)
  | _ => ret tt
  end.

(** The database after [this.geometryModel.set(current, { view, model })],
    the counter having been incremented. *)
Definition withItem (view_ : visual.Item) (model_ : c3d.Item) (d : Database) : Database :=
  withHeap
    (setGeometryAt (geometryModel d)
       (JSMap.set (counter d) {| view := view_; model := model_ |} (liveGeometry d))
       (heap d))
    (withCounter (counter d + 1) d).

(** Every hidden set of the heap is within the keys of the item map at
    the same index. *)
Definition hiddenWithin (gm : list (JSMap.t ItemRecord)) (hs : list (gset Z)) : Prop :=
  forall (i : nat) (id : Z),
    id ∈ default ∅ (hs !! i) -> JSMap.has id (default JSMap.empty (gm !! i)) = true.

(** The invariant of a session behind C8: item maps and hidden sets are
    allocated in pairs, the store and every memento refer to such a pair,
    and each hidden set is within the keys of its item map. *)
Definition paired (s : Session) : Prop :=
  let d := database s in
  length (geometryMaps (heap d)) = length (hiddenSets (heap d)) /\
  geometryModel d = hidden d /\
  Forall (fun m => memento_geometryModel m = memento_hidden m) (mementos s) /\
  hiddenWithin (geometryMaps (heap d)) (hiddenSets (heap d)).

(** Every [hide] of the run is applied to an item whose identity is, at the
    time of the call, a key of the item map. *)
Fixpoint hidesPresent (s : Session) (ops : list Op) : Prop :=
  match ops with
  | [] => True
  | op :: ops' =>
      match op with
      | Hide item => JSMap.has (visual.simpleName item) (liveGeometry (database s)) = true
      | _ => True
      end /\ hidesPresent (step s op) ops'
  end.

(** The identities of the views [addItem] has returned to the client, in
    the order of the calls (those made through [commit] included). *)
Definition identities (s : Session) : list Z := map visual.simpleName (added s).

(** The invariant behind C7: the identities handed out are increasing and
    all of them are below the counter. *)
Definition allocated (s : Session) : Prop :=
  0 <= counter (database s) /\
  Forall (fun id => 0 <= id < counter (database s)) (identities s) /\
  StronglySorted Z.lt (identities s).

(** The three references of the store point into the heap. *)
Definition liveInHeap (d : Database) : Prop :=
  (geometryModel d < length (geometryMaps (heap d)))%nat /\
  (topologyModel d < length (topologyMaps (heap d)))%nat /\
  (hidden d < length (hiddenSets (heap d)))%nat.

(** The view sets of the live topology records are in the heap. *)
Definition viewsInHeap (d : Database) : Prop :=
  forall id td, liveTopology d !! id = Some td ->
    (topology_view td < length (viewSets (heap d)))%nat.

(** A memento none of whose collections is a live collection of the store. *)
Definition detached (d : Database) (m : GeometryMemento) : Prop :=
  memento_geometryModel m <> geometryModel d /\
  memento_topologyModel m <> topologyModel d /\
  memento_hidden m <> hidden d.

(** The faces and edges of the view [addItem] would build for [model_] have
    names the topology index does not hold yet.  (With names derived from
    the parent identity, which [addItem] takes fresh from the counter, this
    is the case.) *)
Definition freshNames (model_ : c3d.Item) (d : Database) : Prop :=
  forall x, meshes (materials d) model_ (counter d) precision_distance = Ok x ->
    forall t, t ∈ visual.traverse x -> liveTopology d !! topology_simpleName t = None.

(** No item map of the heap holds a key twice. *)
Definition itemMapsWellFormed (d : Database) : Prop :=
  Forall (fun m => NoDup (JSMap.keys m)) (geometryMaps (heap d)).

(** Every view set a topology map of the heap refers to is in the heap. *)
Definition topologyMapsWellFormed (h : Heap) : Prop :=
  Forall
    (fun tmap : gmap string TopologyData =>
       forall id td, tmap !! id = Some td ->
         (topology_view td < length (viewSets h))%nat)
    (topologyMaps h).

(** The three references of a memento point into the heap. *)
Definition mementoInHeap (h : Heap) (m : GeometryMemento) : Prop :=
  (memento_geometryModel m < length (geometryMaps h))%nat /\
  (memento_topologyModel m < length (topologyMaps h))%nat /\
  (memento_hidden m < length (hiddenSets h))%nat.

(** A session without dangling references. *)
Definition wellFormed (s : Session) : Prop :=
  liveInHeap (database s) /\
  Forall (mementoInHeap (heap (database s))) (mementos s) /\
  topologyMapsWellFormed (heap (database s)).

(** *** The kernel handle of a face or an edge *)

(** Modelled from the spec: [object.parentItem] is the item a face or an
    edge view belongs to (VisualModel is not under src/); its [simpleName]
    is the identity [build] was given for the face or the edge. *)
Definition topology_parentId (object : visual.TopologyItem) : c3d.SimpleName :=
  match object with
  | visual.AFace f => visual.face_parentId f
  | visual.ACurveEdge e => visual.edge_parentId e
  end.

(** [lookupTopologyItem(object)] *)
Definition lookupTopologyItem (object : visual.TopologyItem) : M TopologyHandle :=
  r <- lookupItemById (topology_parentId object) ;;
  let parentModel := model r in
  match c3d.IsA parentModel with
  | c3d.Solid =>
      let solid := parentModel in
      match object with
      | visual.ACurveEdge e =>
          match c3d.FindEdgeByName solid (CurveEdge_name e) with
          | Some result => ret result
          | None => throw (mkError "cannot find edge")
          end
      | visual.AFace f =>
          match c3d.GetFace solid (Face_index f) with
          | Some result => ret result
          | None => throw (mkError "cannot find face")
          end
      end
  | _ => throw (mkError "Invalid precondition")
  end.

(** *** Notions used to state what the operations do *)

(** The class of view [meshes] builds for a kernel kind, if it builds one. *)
Definition classOf (kind : c3d.SpaceType) : option visual.ItemClass :=
  match kind with
  | c3d.SpaceInstance => Some visual.SpaceInstance
  | c3d.PlaneInstance => Some visual.PlaneInstance
  | c3d.Solid => Some visual.Solid
  | c3d.OtherSpaceType => None
  end.

(** The level [object2mesh] adds for [obj] at the precision and distance
    [pd], when it adds one: the tessellation at that precision returned, and
    the level is made of it as the kind of [obj] asks. *)
Definition levelOf (mats : MaterialDatabase) (obj : c3d.Item) (id : c3d.SimpleName)
    (lvl : visual.Level) (pd : Q * Q) : Prop :=
  exists mesh_,
    c3d.CreateMesh_async obj (fst pd) = Ok mesh_ /\
    match c3d.IsA obj with
    | c3d.SpaceInstance =>
        lvl = visual.CurveLevel
                (map (fun edge => visual.mkCurveSegment edge (line mats (Some obj)))
                     (c3d.GetEdges mesh_ false))
                (snd pd)
    | c3d.PlaneInstance =>
        exists grid,
          c3d.GetBuffers mesh_ = [grid] /\
          lvl = visual.RegionLevel (visual.mkRegion grid (region mats)) (snd pd)
    | c3d.Solid =>
        lvl = visual.SolidLevel
                (map (fun edge =>
                        visual.mkCurveEdge edge id (line mats None) (lineDashed mats))
                     (c3d.GetEdges mesh_ true))
                (map (fun grid =>
                        visual.mkFace grid id (mesh mats grid (c3d.IsClosed mesh_)))
                     (c3d.GetBuffers mesh_))
                (snd pd)
    | c3d.OtherSpaceType => False
    end.

(** Every key of every item map of the heap is an identity the counter has
    handed out: it is at least 0 and below the counter. *)
Definition keysAllocated (d : Database) : Prop :=
  Forall (fun m : JSMap.t ItemRecord =>
            Forall (fun k => 0 <= k < counter d) (JSMap.keys m))
         (geometryMaps (heap d)).

(** A change of the scene, as the store notifies it. *)
Inductive Change :=
| Added (v : visual.Item)
| Removed (v : visual.Item).

(** The signals dispatched for a change: the item signal, then
    [sceneGraphChanged]. *)
Definition signalsOf (c : Change) : list Signal :=
  match c with
  | Added v => [objectAdded v; sceneGraphChanged]
  | Removed v => [objectRemoved v; sceneGraphChanged]
  end.

(** The views of the additions among a list of changes. *)
Definition additions (cs : list Change) : list visual.Item :=
  flat_map (fun c => match c with Added v => [v] | Removed _ => [] end) cs.

(** The operations of a run that succeed in changing the scene are
    [removeItem], always, and [addItem] and [commit] when they return. *)
Definition notifies (s : Session) (ops : list Op) : list Signal :=
  dispatched (database (run s ops)).

End Store.

End GeometryDatabase.

(** ** GPUPicker: from a compact identity to the name of a face or an edge *)

Module GPUPickerNames.

Section Names.
(** [visual.CurveEdge.simpleName(parentId, index)] and
    [visual.Face.simpleName(parentId, index)]: VisualModel is not under
    src/, so the two static methods are taken as given. *)
Variables CurveEdge_simpleName Face_simpleName : Z -> Z -> string.

(** [static compact2full(compact)] *)
Definition compact2full (compact : Z) : string :=
  let e := GPUPicker.extract compact in
  if GPUPicker.type e =? 0
  then CurveEdge_simpleName (GPUPicker.parentId e) (GPUPicker.index e)
  else Face_simpleName (GPUPicker.parentId e) (GPUPicker.index e).

End Names.

End GPUPickerNames.

(** ** MaterialDatabase

    The materials are THREE objects kept in two [Map]s keyed by the hash of
    a name; [mesh] writes the [side] of the material it returns, so the
    objects live in a heap and the maps hold references to them. *)

Module MaterialDB.

(** [str.charCodeAt(i)] for every [i]: the code units of a string.  The
    strings hashed here are ASCII, for which a byte is a code unit. *)
Definition charCodes (str : string) : list Z :=
  map (fun a => Z.of_N (Ascii.N_of_ascii a)) (String.list_ascii_of_string str).

(** [function hash(str)]: [h] starts at 9, each code unit is xored in and
    the result multiplied by [9 ** 9] with [Math.imul]; the value returned
    is [h ^ h >>> 9]. *)
Definition hash (str : string) : Z :=
  let h := fold_left (fun h c => JS.imul (JS.xor h c) (9 ^ 9)) (charCodes str) 9 in
  JS.xor h (JS.shr h 9).

(** [THREE.FrontSide], [THREE.BackSide], [THREE.DoubleSide] *)
Inductive Side := FrontSide | BackSide | DoubleSide.

(** The materials the constructor creates, with the parameters it gives. *)
Inductive MaterialClass :=
| LineBasicMaterial (color : Z) (linewidth : option Z)
| PointsMaterial (color : Z)
| MeshMatcapMaterial (polygonOffset : bool) (polygonOffsetFactor polygonOffsetUnits : Q).

(** A THREE.Material object; a new material has [side = FrontSide]. *)
Record Material := mkMaterial {
  class : MaterialClass;
  side : Side;
}.

(** A [MaterialDatabase] object: its two maps, from the hash of a name or
    the style of a kernel item to a reference into [objects]. *)
Record Database := mkDatabase {
  materials : JSMap.t nat;
  lineMaterials : JSMap.t nat;
  objects : list Material;
}.

(** [new THREE....Material(...)] followed by [map.set(hash(name), it)]. *)
Definition register (line_ : bool) (name : string) (c : MaterialClass) (db : Database)
    : Database :=
  let it := length (objects db) in
  {| materials := if line_ then materials db else JSMap.set (hash name) it (materials db);
     lineMaterials :=
       if line_ then JSMap.set (hash name) it (lineMaterials db) else lineMaterials db;
     objects := objects db ++ [{| class := c; side := FrontSide |}] |}.

(** [constructor()] *)
Definition new : Database :=
  register false "mesh" (MeshMatcapMaterial true 0.1 1)
    (register false "point" (PointsMaterial 0x888888)
       (register true "line-hovered" (LineBasicMaterial 0xffffff (Some 4))
          (register true "line-highlighted" (LineBasicMaterial 0xffff00 (Some 4))
             (register true "line" (LineBasicMaterial 0x000000 None)
                {| materials := JSMap.empty; lineMaterials := JSMap.empty;
                   objects := [] |})))).

Section Lookups.
Context `{Handles}.
(** [o.GetStyle()] of a kernel item and [o.style] of a polygon buffer: the
    kernel is not under src/, so the two are taken as given. *)
Variable GetStyle : c3d.Item -> Z.
Variable style : MeshBuffer -> Z.

(** [get(o)]: [None] is [undefined]. *)
Definition get (db : Database) (o : c3d.Item) : option nat :=
  JSMap.get (GetStyle o) (materials db).

(** [private getLine(l)] *)
Definition getLine (db : Database) (l : c3d.Item) : option nat :=
  JSMap.get (GetStyle l) (lineMaterials db).

(** [a ?? b] *)
Definition orElse {A} (a b : option A) : option A :=
  match a with Some _ => a | None => b end.

(** [line(o?)] *)
Definition line (db : Database) (o : option c3d.Item) : option nat :=
  match o with
  | None => JSMap.get (hash "line") (lineMaterials db)
  | Some o => orElse (getLine db o) (JSMap.get (hash "line") (lineMaterials db))
  end.

(** [point(o?)] *)
Definition point (db : Database) (o : option c3d.Item) : option nat :=
  match o with
  | None => JSMap.get (hash "point") (materials db)
  | Some o => orElse (get db o) (JSMap.get (hash "point") (materials db))
  end.

(** The first argument of [mesh]: a kernel item, a polygon buffer, or
    nothing. *)
Inductive MeshArgument :=
| OfItem (o : c3d.Item)
| OfBuffer (o : MeshBuffer)
| OfNothing.

(** The material [mesh] picks, before it writes its side. *)
Definition meshMaterial (db : Database) (o : MeshArgument) : option nat :=
  orElse
    match o with
    | OfItem o => get db o
    | OfBuffer o => JSMap.get (style o) (materials db)
    | OfNothing => None
    end
    (JSMap.get (hash "mesh") (materials db)).

(** [mesh(o?, doubleSided?)]: the material picked has its [side] written
    and is returned; writing the side of [undefined] is a TypeError. *)
Definition mesh (o : MeshArgument) (doubleSided : bool) (db : Database)
    : Database * Result nat :=
  match meshMaterial db o with
  | None => (db, Throw (mkError "TypeError"))
  | Some material =>
      match objects db !! material with
      | None => (db, Throw (mkError "TypeError"))
      | Some it =>
          ({| materials := materials db;
              lineMaterials := lineMaterials db;
              objects :=
                <[material := {| class := class it;
                                 side := if doubleSided then FrontSide else DoubleSide |}]>
                  (objects db) |},
           Ok material)
      end
  end.

(** [highlight(o)] *)
Definition highlight (db : Database) : option nat :=
  JSMap.get (hash "line-highlighted") (lineMaterials db).

(** [lookup(o)] *)
Definition lookup (db : Database) : option nat :=
  JSMap.get (hash "line") (lineMaterials db).

(** [hover()] *)
Definition hover (db : Database) : option nat :=
  JSMap.get (hash "line-hovered") (lineMaterials db).

(** The database after a sequence of calls to [mesh], the only method that
    writes; a call that throws leaves it as it was. *)
Definition meshes (calls : list (MeshArgument * bool)) (db : Database) : Database :=
  fold_left (fun db call => fst (mesh (fst call) (snd call) db)) calls db.

(** The side of the material object a reference points to. *)
Definition sideOf (db : Database) (material : nat) : option Side :=
  side <$> objects db !! material.

End Lookups.

End MaterialDB.

(** ** A concrete kernel, used to run the store on examples

    Buffers and handles are numbers; a face view is named after its parent
    and its buffer, as is an edge view. *)

Module Demo.

#[export] Instance handles : Handles := {|
  MeshBuffer := Z;
  EdgeBuffer := Z;
  TopologyHandle := Z;
  Name := Z;
  Material := Z;
|}.

#[export] Instance visualModel : VisualModel := {|
  Face_simpleName := fun f =>
    "face," +:+ pretty (visual.face_parentId f) +:+ "," +:+ pretty (visual.face_grid f);
  Face_index := fun f => visual.face_grid f;
  CurveEdge_simpleName := fun e =>
    "edge," +:+ pretty (visual.edge_parentId e) +:+ "," +:+ pretty (visual.edge_buffer e);
  CurveEdge_name := fun e => visual.edge_buffer e;
|}.

Definition materials : MaterialDatabase :=
  {| line := fun _ => 1; lineDashed := 2; region := 3; mesh := fun _ _ => 4 |}.

(** A tessellation with the given edges and polygon buffers. *)
Definition tessellation (edges : list Z) (grids : list Z) : c3d.Mesh :=
  {| c3d.GetEdges := fun _ => edges; c3d.GetBuffers := grids; c3d.IsClosed := true |}.

(** A kernel item of the given kind whose tessellation succeeds. *)
Definition item (kind : c3d.SpaceType) (edges grids : list Z) : c3d.Item :=
  {| c3d.IsA := kind;
     c3d.CreateMesh_async := fun _ => Ok (tessellation edges grids);
     c3d.GetFace := fun i => Some (100 + i);
     c3d.FindEdgeByName := fun n => Some (200 + n) |}.

(** A kernel item whose tessellation raises. *)
Definition failing (kind : c3d.SpaceType) : c3d.Item :=
  {| c3d.IsA := kind;
     c3d.CreateMesh_async := fun _ => Throw (mkError "kernel");
     c3d.GetFace := fun _ => None;
     c3d.FindEdgeByName := fun _ => None |}.

(** A solid with two faces and four edges, a curve, a region. *)
Definition box : c3d.Item := item c3d.Solid [0; 1; 2; 3] [0; 1].
Definition curve : c3d.Item := item c3d.SpaceInstance [0] [].
Definition plane : c3d.Item := item c3d.PlaneInstance [] [0].

Definition store : GeometryDatabase.Database := GeometryDatabase.new materials.

Definition session : GeometryDatabase.Session := GeometryDatabase.start materials.

(** The view a call to [addItem] returned. *)
Definition returned (r : GeometryDatabase.Database * Result visual.Item) : visual.Item :=
  match snd r with
  | Ok v => v
  | Throw _ => visual.mkItem (-1) visual.SpaceInstance []
  end.

(** The views of [box] and of [curve], each added first to a new store. *)
Definition boxView : visual.Item := returned (GeometryDatabase.addItem box store).
Definition curveView : visual.Item := returned (GeometryDatabase.addItem curve store).

(** A view of an item the store has never held. *)
Definition stranger : visual.Item := visual.mkItem 7 visual.SpaceInstance [].

End Demo.

(** * Properties *)

(** ** The compact encoding *)

Module GPUPickerFacts.
Import GPUPicker.

Lemma shl_1_16 : JS.shl 1 16 = 65536.
Proof. reflexivity. Qed.

Lemma shl_1_15 : JS.shl 1 15 = 32768.
Proof. reflexivity. Qed.

(** The two guards of [compactTopologyId], read off the code: it throws
    exactly when [parentId > 65536] or [index > 32768]. *)
Lemma compactTopologyId_throws_iff (t : TopologyType) (parentId index : Z) :
  throws (compactTopologyId t parentId index) <-> 65536 < parentId \/ 32768 < index.
Proof.
  unfold compactTopologyId. rewrite shl_1_16, shl_1_15.
  destruct (parentId >? 65536) eqn:Hp; [| destruct (index >? 32768) eqn:Hi].
  - split; [intros _; left; lia | intros _; eexists; reflexivity].
  - split; [intros _; right; lia | intros _; eexists; reflexivity].
  - split.
    + intros [e He]. discriminate He.
    + lia.
Qed.

(** The scenario of the specification: parent 42, a face, index 7. *)
Lemma roundtrip_42_face_7 :
  roundtrip face 42 7 = Ok {| parentId := 42; type := type_code face; index := 7 |}.
Proof. reflexivity. Qed.

(** ToInt32 is the identity on the signed 32-bit range. *)
Lemma to_int32_small z : - 2 ^ 31 <= z < 2 ^ 31 -> JS.to_int32 z = z.
Proof. intros Hz. unfold JS.to_int32. rewrite Z.mod_small by lia. lia. Qed.

(** A multiple of [2^n] and a value below [2^n] share no bit. *)
Lemma land_shifted_low x b n : 0 <= n -> 0 <= b < 2 ^ n -> Z.land (x * 2 ^ n) b = 0.
Proof.
  intros Hn Hb. apply Z.bits_inj'. intros m Hm.
  rewrite Z.land_spec, Z.bits_0.
  destruct (Z.lt_ge_cases m n) as [Hlt | Hge].
  - rewrite Z.mul_pow2_bits_low by lia. reflexivity.
  - destruct (Z.eq_dec b 0) as [-> | Hb0].
    + rewrite Z.bits_0. apply andb_false_r.
    + rewrite (Z.bits_above_log2 b m); [apply andb_false_r | lia |].
      assert (Z.log2 b < n) by (apply Z.log2_lt_pow2; lia). lia.
Qed.

Lemma lor_shifted_low x b n : 0 <= n -> 0 <= b < 2 ^ n -> Z.lor (x * 2 ^ n) b = x * 2 ^ n + b.
Proof.
  intros Hn Hb. pose proof (land_shifted_low x b n Hn Hb) as Hland.
  rewrite Z.add_nocarry_lxor by exact Hland. symmetry. apply Z.lxor_lor. exact Hland.
Qed.

(** The mask [0xef] keeps a 7-bit value whose bit 4 is clear. *)
Lemma land_0xef hi : 0 <= hi < 128 -> Z.testbit hi 4 = false -> Z.land hi 0xef = hi.
Proof.
  intros Hhi Hbit.
  assert (Hall : forallb (fun h => implb (negb (Z.testbit h 4)) (Z.land h 0xef =? h))
                   (map Z.of_nat (seq 0 128)) = true) by reflexivity.
  assert (Hin : In hi (map Z.of_nat (seq 0 128))).
  { apply in_map_iff. exists (Z.to_nat hi). split; [lia |]. apply in_seq. lia. }
  pose proof (proj1 (forallb_forall _ _) Hall hi Hin) as Hh.
  cbv beta in Hh. rewrite Hbit in Hh. apply Z.eqb_eq. exact Hh.
Qed.

(** The identity [compactTopologyId] returns for a parent below [2^15] and
    an index below [2^15] whose bit 12 is clear: parent, kind and index
    side by side. *)
Lemma compactTopologyId_within t p i :
  0 <= p < 2 ^ 15 -> 0 <= i < 2 ^ 15 -> Z.testbit i 12 = false ->
  compactTopologyId t p i = Ok (p * 2 ^ 16 + (type_code t * 2 ^ 15 + i)).
Proof.
  intros Hp Hi Hbit.
  unfold compactTopologyId.
  change (JS.shl 1 16) with 65536. change (JS.shl 1 15) with 32768.
  destruct (Z.gtb_spec p 65536); [lia |]. destruct (Z.gtb_spec i 32768); [lia |].
  f_equal.
  set (hi := i / 2 ^ 8). set (lo := i mod 2 ^ 8).
  assert (Hhi : 0 <= hi < 128) by (subst hi; split; [apply Z.div_pos; lia | apply Z.div_lt_upper_bound; lia]).
  assert (Hlo : 0 <= lo < 256) by (subst lo; apply Z.mod_pos_bound; lia).
  assert (Hi' : i = hi * 2 ^ 8 + lo) by (subst hi lo; rewrite Z.mul_comm; apply Z.div_mod; lia).
  assert (Hhibit : Z.testbit hi 4 = false).
  { subst hi. rewrite <- Z.shiftr_div_pow2 by lia. rewrite Z.shiftr_spec by lia. exact Hbit. }
  assert (Hsar8 : JS.sar i 8 = hi).
  { unfold JS.sar. rewrite to_int32_small by lia. change (8 mod 32) with 8.
    apply Z.shiftr_div_pow2. lia. }
  assert (Hsar0 : JS.sar i 0 = i).
  { unfold JS.sar. rewrite to_int32_small by lia. apply Z.shiftr_0_r. }
  assert (Hmask : JS.and hi 0xef = hi).
  { unfold JS.and. rewrite to_int32_small by lia. change (JS.to_int32 0xef) with 0xef.
    apply land_0xef; assumption. }
  assert (He : JS.and i 255 = lo).
  { unfold JS.and. rewrite to_int32_small by lia. change (JS.to_int32 255) with (Z.ones 8).
    apply Z.land_ones. lia. }
  assert (Hc : JS.shl (match t with edge => 0 | face => 1 end) 7 = type_code t * 2 ^ 7)
    by (destruct t; reflexivity).
  assert (Hd : JS.or (type_code t * 2 ^ 7) hi = type_code t * 2 ^ 7 + hi).
  { unfold JS.or. rewrite !to_int32_small by (destruct t; simpl; lia).
    apply lor_shifted_low; lia. }
  assert (Hd8 : JS.shl (type_code t * 2 ^ 7 + hi) 8 = type_code t * 2 ^ 15 + hi * 2 ^ 8).
  { unfold JS.shl. change (8 mod 32) with 8.
    rewrite (to_int32_small (_ + _)) by (destruct t; simpl; lia).
    rewrite Z.shiftl_mul_pow2 by lia.
    rewrite to_int32_small by (destruct t; simpl; lia). destruct t; simpl; lia. }
  assert (Hp16 : JS.shl p 16 = p * 2 ^ 16).
  { unfold JS.shl. change (16 mod 32) with 16. rewrite (to_int32_small p) by lia.
    rewrite Z.shiftl_mul_pow2 by lia. apply to_int32_small. lia. }
  rewrite Hsar8, Hsar0, Hmask, He, Hc, Hd, Hd8, Hp16.
  assert (Hor1 : JS.or (p * 2 ^ 16) (type_code t * 2 ^ 15 + hi * 2 ^ 8)
                 = p * 2 ^ 16 + (type_code t * 2 ^ 15 + hi * 2 ^ 8)).
  { unfold JS.or. rewrite !to_int32_small by (destruct t; simpl; lia).
    apply lor_shifted_low; destruct t; simpl; lia. }
  rewrite Hor1.
  unfold JS.or. rewrite !to_int32_small by (destruct t; simpl; lia).
  replace (p * 2 ^ 16 + (type_code t * 2 ^ 15 + hi * 2 ^ 8))
    with ((p * 2 ^ 8 + type_code t * 2 ^ 7 + hi) * 2 ^ 8) by lia.
  rewrite lor_shifted_low by lia. lia.
Qed.

(** Where the encoding does work: for a parent below [2^15] and an index
    below [2^15] whose bit 12 is clear, decoding inverts encoding. *)
Lemma roundtrip_within t p i :
  0 <= p < 2 ^ 15 -> 0 <= i < 2 ^ 15 -> Z.testbit i 12 = false ->
  roundtrip t p i = Ok {| parentId := p; type := type_code t; index := i |}.
Proof.
  intros Hp Hi Hbit.
  pose proof (compactTopologyId_within t p i Hp Hi Hbit) as Hid.
  unfold roundtrip. rewrite Hid. f_equal.
  set (low := type_code t * 2 ^ 15 + i).
  assert (Hlow : 0 <= low < 2 ^ 16) by (subst low; destruct t; simpl; lia).
  unfold extract.
  assert (Hpar : JS.sar (p * 2 ^ 16 + low) 16 = p).
  { unfold JS.sar. rewrite to_int32_small by lia. change (16 mod 32) with 16.
    rewrite Z.shiftr_div_pow2 by lia.
    rewrite Z.add_comm, Z.div_add by lia. rewrite Z.div_small by lia. lia. }
  assert (Hl : JS.and (p * 2 ^ 16 + low) 0xffff = low).
  { unfold JS.and. rewrite to_int32_small by lia. change (JS.to_int32 0xffff) with (Z.ones 16).
    rewrite Z.land_ones by lia. rewrite Z.add_comm, Z.mod_add by lia. apply Z.mod_small. lia. }
  assert (Hty : JS.sar low 15 = type_code t).
  { unfold JS.sar. rewrite to_int32_small by lia. change (15 mod 32) with 15.
    rewrite Z.shiftr_div_pow2 by lia. subst low.
    rewrite Z.add_comm, Z.div_add by lia. rewrite Z.div_small by lia. lia. }
  assert (Hix : JS.and low 0x7fff = i).
  { unfold JS.and. rewrite to_int32_small by lia. change (JS.to_int32 0x7fff) with (Z.ones 15).
    rewrite Z.land_ones by lia. subst low.
    rewrite Z.add_comm, Z.mod_add by lia. apply Z.mod_small. lia. }
  rewrite Hpar, Hl, Hty, Hix. reflexivity.
Qed.

(** C1 (the code departs from the claim): within the declared widths
    ([parentId < 2^16], [index < 2^15]) decoding is not the inverse of
    encoding.  The mask [0xef] of [compactTopologyId] drops bit 12 of the
    index, so edge 4096 of item 0 decodes as edge 0 of item 0; and a parent
    from [2^15] on is shifted into the sign bit, so [extract] returns it
    negative. *)
Theorem compactTopologyId_extract_not_inverse :
  4096 < 2 ^ 15 /\ 32768 < 2 ^ 16 /\
  roundtrip edge 0 4096 = Ok {| parentId := 0; type := 0; index := 0 |} /\
  roundtrip edge 0 4096 = roundtrip edge 0 0 /\
  roundtrip edge 32768 0 = Ok {| parentId := -32768; type := 0; index := 0 |}.
Proof. repeat split; reflexivity. Qed.

(** C2 (the code departs from the claim): the guards compare with [>], so
    the first value past each width is encoded, not rejected.  Parent
    [2^16] is shifted out of the 32 bits and the identity of edge 5 of item
    0 comes back; index [2^15] sets the kind bit and the identity of face 0
    comes back. *)
Theorem compactTopologyId_accepts_first_out_of_range :
  compactTopologyId edge (2 ^ 16) 5 = Ok 5 /\
  compactTopologyId edge (2 ^ 16) 5 = compactTopologyId edge 0 5 /\
  compactTopologyId edge 3 (2 ^ 15) = Ok 229376 /\
  compactTopologyId edge 3 (2 ^ 15) = compactTopologyId face 3 0.
Proof. repeat split; reflexivity. Qed.

End GPUPickerFacts.

(** ** The insertion-ordered map *)

Module JSMapFacts.

Section JSMapFacts.
Context {V : Type}.
Implicit Types (m : JSMap.t V) (k : Z) (v : V).

Lemma get_set_eq k v m : JSMap.get k (JSMap.set k v m) = Some v.
Proof.
  induction m as [| [k' v'] m IH]; simpl.
  - rewrite Z.eqb_refl. reflexivity.
  - destruct (Z.eqb k' k) eqn:E; simpl.
    + rewrite Z.eqb_refl. reflexivity.
    + rewrite E. exact IH.
Qed.

Lemma get_set_ne k k' v m : k <> k' -> JSMap.get k' (JSMap.set k v m) = JSMap.get k' m.
Proof.
  intros Hne. induction m as [| [k0 v0] m IH]; simpl.
  - destruct (Z.eqb_spec k k'); [contradiction | reflexivity].
  - destruct (Z.eqb_spec k0 k) as [-> | Hk]; simpl.
    + destruct (Z.eqb_spec k k'); [contradiction | reflexivity].
    + destruct (Z.eqb_spec k0 k'); [reflexivity | exact IH].
Qed.

Lemma get_delete_eq k m : JSMap.get k (JSMap.delete k m) = None.
Proof.
  induction m as [| [k' v'] m IH]; simpl; [reflexivity |].
  destruct (Z.eqb k' k) eqn:E; simpl; [exact IH |].
  rewrite E. exact IH.
Qed.

Lemma get_delete_ne k k' m : k <> k' -> JSMap.get k' (JSMap.delete k m) = JSMap.get k' m.
Proof.
  intros Hne. induction m as [| [k0 v0] m IH]; simpl; [reflexivity |].
  destruct (Z.eqb_spec k0 k) as [-> | Hk]; simpl.
  - destruct (Z.eqb_spec k k'); [contradiction | exact IH].
  - destruct (Z.eqb_spec k0 k'); [reflexivity | exact IH].
Qed.

(** Deleting a key the map does not hold leaves the map as it is. *)
Lemma delete_absent k m : JSMap.get k m = None -> JSMap.delete k m = m.
Proof.
  induction m as [| [k' v'] m IH]; simpl; [reflexivity |].
  destruct (Z.eqb k' k); [discriminate |].
  intros Hm. rewrite (IH Hm). reflexivity.
Qed.

Lemma has_set k k' v m :
  JSMap.has k' (JSMap.set k v m) = (Z.eqb k k' || JSMap.has k' m)%bool.
Proof.
  unfold JSMap.has. destruct (Z.eqb_spec k k') as [-> | Hne]; simpl.
  - rewrite get_set_eq. reflexivity.
  - rewrite get_set_ne by assumption. reflexivity.
Qed.

Lemma has_delete_ne k k' m : k <> k' -> JSMap.has k' (JSMap.delete k m) = JSMap.has k' m.
Proof. intros Hne. unfold JSMap.has. rewrite get_delete_ne by assumption. reflexivity. Qed.

Lemma get_none_keys k m : JSMap.get k m = None <-> k ∉ JSMap.keys m.
Proof.
  induction m as [| [k' v'] m IH]; simpl.
  - split; [intros _; apply not_elem_of_nil | reflexivity].
  - rewrite not_elem_of_cons. destruct (Z.eqb_spec k' k) as [-> | Hne].
    + split; [discriminate | intros [Hk _]; contradiction].
    + rewrite IH. split; [intros Hk; split; [congruence | exact Hk] | intros [_ Hk]; exact Hk].
Qed.

(** A key the map does not hold is set at the end. *)
Lemma set_absent k v m : JSMap.get k m = None -> JSMap.set k v m = m ++ [(k, v)].
Proof.
  induction m as [| [k' v'] m IH]; simpl; [reflexivity |].
  destruct (Z.eqb k' k); [discriminate |].
  intros Hm. rewrite (IH Hm). reflexivity.
Qed.

Lemma keys_app m1 m2 : JSMap.keys (m1 ++ m2) = JSMap.keys m1 ++ JSMap.keys m2.
Proof. unfold JSMap.keys. apply map_app. Qed.

Lemma copy_onto acc m :
  NoDup (JSMap.keys (acc ++ m)) ->
  fold_left (fun a kv => JSMap.set (fst kv) (snd kv) a) m acc = acc ++ m.
Proof.
  revert acc. induction m as [| [k v] m IH]; intros acc Hnd; simpl.
  - rewrite app_nil_r. reflexivity.
  - assert (Hk : JSMap.get k acc = None).
    { apply get_none_keys. rewrite keys_app in Hnd. simpl in Hnd.
      apply NoDup_app in Hnd as (_ & Hdisj & _).
      intros Hin. apply (Hdisj k Hin). left. }
    rewrite (set_absent _ _ _ Hk).
    rewrite IH; rewrite <- app_assoc; simpl; [reflexivity | exact Hnd].
Qed.

(** [new Map(m)] has the entries of [m], in the order of [m]. *)
Lemma copy_id m : NoDup (JSMap.keys m) -> JSMap.copy m = m.
Proof. intros Hnd. unfold JSMap.copy, JSMap.empty. rewrite copy_onto; [reflexivity | exact Hnd]. Qed.

Lemma has_fold_set k acc m :
  JSMap.has k (fold_left (fun a kv => JSMap.set (fst kv) (snd kv) a) m acc)
  = (JSMap.has k acc || JSMap.has k m)%bool.
Proof.
  revert acc. induction m as [| [k' v'] m IH]; intros acc; simpl.
  - unfold JSMap.has at 3. simpl. rewrite orb_false_r. reflexivity.
  - rewrite IH, has_set. unfold JSMap.has at 4. simpl.
    destruct (Z.eqb k' k); simpl.
    + rewrite orb_true_r. reflexivity.
    + destruct (JSMap.has k acc); reflexivity.
Qed.

(** A copy holds the keys of the original. *)
Lemma has_copy k m : JSMap.has k (JSMap.copy m) = JSMap.has k m.
Proof. unfold JSMap.copy. rewrite has_fold_set. reflexivity. Qed.

Lemma keys_set_absent k v m :
  JSMap.get k m = None -> JSMap.keys (JSMap.set k v m) = JSMap.keys m ++ [k].
Proof. intros Hk. rewrite set_absent by assumption. apply keys_app. Qed.

Lemma keys_set_present k v m :
  JSMap.get k m <> None -> JSMap.keys (JSMap.set k v m) = JSMap.keys m.
Proof.
  induction m as [| [k' v'] m IH]; simpl; [congruence |].
  destruct (Z.eqb_spec k' k) as [-> | Hne]; simpl; [reflexivity |].
  intros Hm. rewrite (IH Hm). reflexivity.
Qed.

Lemma NoDup_keys_set k v m : NoDup (JSMap.keys m) -> NoDup (JSMap.keys (JSMap.set k v m)).
Proof.
  intros Hnd. destruct (JSMap.get k m) eqn:E.
  - rewrite keys_set_present; [exact Hnd | congruence].
  - rewrite keys_set_absent by assumption.
    apply NoDup_app. split; [exact Hnd |]. split.
    + intros x Hx Hx'. apply list_elem_of_singleton in Hx' as ->.
      apply get_none_keys in E. contradiction.
    + apply NoDup_singleton.
Qed.

Lemma keys_delete_sub k k' m : k' ∈ JSMap.keys (JSMap.delete k m) -> k' ∈ JSMap.keys m.
Proof.
  induction m as [| [k0 v0] m IH]; simpl; [auto |].
  destruct (Z.eqb k0 k); simpl.
  - intros Hin. right. auto.
  - rewrite !elem_of_cons. intros [-> | Hin]; [left; reflexivity | right; auto].
Qed.

Lemma NoDup_keys_delete k m : NoDup (JSMap.keys m) -> NoDup (JSMap.keys (JSMap.delete k m)).
Proof.
  induction m as [| [k0 v0] m IH]; simpl; [auto |].
  rewrite NoDup_cons. intros [Hk0 Hnd].
  destruct (Z.eqb k0 k); simpl; [auto |].
  apply NoDup_cons. split; [| auto].
  intros Hin. apply Hk0. eapply keys_delete_sub. exact Hin.
Qed.

End JSMapFacts.

End JSMapFacts.

(** ** The store *)

Module GeometryDatabaseFacts.
Import GeometryDatabase.

Section MeshBuilder.
Context `{VisualModel}.

Lemma object2mesh_region mats builder obj id sag distance mesh_ :
  c3d.IsA obj = c3d.PlaneInstance ->
  c3d.CreateMesh_async obj sag = Ok mesh_ ->
  object2mesh mats builder obj id sag distance =
    match c3d.GetBuffers mesh_ with
    | [grid] =>
        Ok (visual.addLOD builder
              (visual.RegionLevel (visual.mkRegion grid (region mats)) distance))
    | _ => Throw (mkError "Invalid precondition")
    end.
Proof.
  intros Hkind Hmesh. unfold object2mesh. rewrite Hmesh, Hkind.
  destruct (c3d.GetBuffers mesh_) as [| grid [| grid' grids]]; reflexivity.
Qed.

Lemma object2mesh_class mats builder obj id sag distance builder' :
  object2mesh mats builder obj id sag distance = Ok builder' ->
  visual.builder_class builder' = visual.builder_class builder.
Proof.
  unfold object2mesh. destruct (c3d.CreateMesh_async obj sag); [| discriminate].
  destruct (c3d.IsA obj); try discriminate.
  - intros [= <-]. reflexivity.
  - destruct (negb _); [discriminate |].
    destruct (c3d.GetBuffers a !! 0%nat); [| discriminate].
    intros [= <-]. reflexivity.
  - intros [= <-]. reflexivity.
Qed.

Lemma forEachResult_region mats obj id pds builder builder' :
  c3d.IsA obj = c3d.PlaneInstance ->
  forEachResult (fun b pd => object2mesh mats b obj id (fst pd) (snd pd)) builder pds
    = Ok builder' ->
  exists lvls,
    visual.builder_levels builder' = visual.builder_levels builder ++ lvls /\
    Forall2 (regionLevelOf mats obj) lvls pds.
Proof.
  intros Hkind. revert builder.
  induction pds as [| pd pds IH]; intros builder; simpl.
  - intros [= <-]. exists []. rewrite app_nil_r. split; [reflexivity | constructor].
  - destruct (c3d.CreateMesh_async obj (fst pd)) as [mesh_ | e] eqn:Hmesh.
    2:{ unfold object2mesh. rewrite Hmesh. discriminate. }
    rewrite (object2mesh_region _ _ _ _ _ _ _ Hkind Hmesh).
    destruct (c3d.GetBuffers mesh_) as [| grid [| grid' grids]] eqn:Hgrids;
      try discriminate.
    intros Hrest. apply IH in Hrest as (lvls & Hlvls & Hall). simpl in Hlvls.
    eexists (_ :: lvls). split.
    + rewrite Hlvls, <- app_assoc. reflexivity.
    + constructor; [| exact Hall]. exists mesh_, grid. auto.
Qed.

(** C10: for a planar region whose tessellation the kernel returns, one
    level of the build throws exactly when the number of polygon buffers is
    not one (zero as well as two or more); and every level of a region view
    that [meshes] returns holds exactly one filled polygon buffer, the one
    the kernel returned at that level's precision. *)
Theorem region_build_one_buffer_per_level mats builder obj id sag distance mesh_ pds :
  c3d.IsA obj = c3d.PlaneInstance ->
  c3d.CreateMesh_async obj sag = Ok mesh_ ->
  (throws (object2mesh mats builder obj id sag distance)
     <-> length (c3d.GetBuffers mesh_) <> 1%nat) /\
  (forall v, meshes mats obj id pds = Ok v ->
     Forall2 (regionLevelOf mats obj) (visual.lods v) pds).
Proof.
  intros Hkind Hmesh. split.
  - rewrite (object2mesh_region _ _ _ _ _ _ _ Hkind Hmesh).
    destruct (c3d.GetBuffers mesh_) as [| grid [| grid' grids]]; simpl.
    + split; [intros _; lia | intros _; eexists; reflexivity].
    + split; [intros [e He]; discriminate | intros Hne; contradiction].
    + split; [intros _; lia | intros _; eexists; reflexivity].
  - intros v. unfold meshes. rewrite Hkind.
    destruct (forEachResult _ _ pds) as [b |] eqn:Hloop; [| discriminate].
    intros [= <-]. simpl.
    apply forEachResult_region in Hloop as (lvls & Hlvls & Hall); [| exact Hkind].
    simpl in Hlvls. rewrite Hlvls. exact Hall.
Qed.

(** The view [meshes] returns carries the identity it was given. *)
Lemma meshes_simpleName mats obj id pds v :
  meshes mats obj id pds = Ok v -> visual.simpleName v = id.
Proof.
  unfold meshes. destruct (c3d.IsA obj); try discriminate;
    (destruct (forEachResult _ _ pds); [| discriminate]); intros [= <-]; reflexivity.
Qed.

(** The three ways the mesh build fails. *)
Lemma meshes_unsupported mats obj id pds :
  c3d.IsA obj = c3d.OtherSpaceType ->
  meshes mats obj id pds = Throw (mkError "type not yet supported").
Proof. intros Hkind. unfold meshes. rewrite Hkind. reflexivity. Qed.

Lemma meshes_kernel_failure mats obj id pd pds e :
  c3d.IsA obj <> c3d.OtherSpaceType ->
  c3d.CreateMesh_async obj (fst pd) = Throw e ->
  meshes mats obj id (pd :: pds) = Throw e.
Proof.
  intros Hkind Hmesh. unfold meshes.
  destruct (c3d.IsA obj); try contradiction; simpl;
    unfold object2mesh; rewrite Hmesh; reflexivity.
Qed.

Lemma meshes_region_cardinality mats obj id pd pds mesh_ :
  c3d.IsA obj = c3d.PlaneInstance ->
  c3d.CreateMesh_async obj (fst pd) = Ok mesh_ ->
  length (c3d.GetBuffers mesh_) <> 1%nat ->
  meshes mats obj id (pd :: pds) = Throw (mkError "Invalid precondition").
Proof.
  intros Hkind Hmesh Hlen. unfold meshes. rewrite Hkind. simpl.
  rewrite (object2mesh_region _ _ _ _ _ _ _ Hkind Hmesh).
  destruct (c3d.GetBuffers mesh_) as [| grid [| grid' grids]];
    [reflexivity | contradiction | reflexivity].
Qed.

(** C9: when the mesh build throws, [addItem] and [addTemporaryItem] throw
    the same error and commit nothing.  After the failed [addItem] the
    database is the one before the call with one identity consumed from the
    counter: the item map, the topology index, the hidden set, the
    temporary objects and all collections in the heap are as before, and no
    signal is dispatched.  After the failed [addTemporaryItem] the database
    is the one before the call. *)
Theorem mesh_failure_commits_nothing (d : Database) (obj : c3d.Item) (e : Error) :
  (meshes (materials d) obj (counter d) precision_distance = Throw e ->
     addItem obj d = (withCounter (counter d + 1) d, Throw e) /\
     heap (fst (addItem obj d)) = heap d /\
     liveGeometry (fst (addItem obj d)) = liveGeometry d /\
     liveTopology (fst (addItem obj d)) = liveTopology d /\
     liveHidden (fst (addItem obj d)) = liveHidden d /\
     temporaryObjects (fst (addItem obj d)) = temporaryObjects d /\
     dispatched (fst (addItem obj d)) = dispatched d) /\
  (meshes (materials d) obj (-1) [(0.005, 1)]%Q = Throw e ->
     addTemporaryItem obj d = (d, Throw e)).
Proof.
  split.
  - intros Hfail.
    assert (Hadd : addItem obj d = (withCounter (counter d + 1) d, Throw e)).
    { unfold addItem, bind. simpl. rewrite Hfail. reflexivity. }
    rewrite Hadd. simpl. repeat split; reflexivity.
  - intros Hfail. unfold addTemporaryItem, bind. rewrite Hfail. reflexivity.
Qed.

End MeshBuilder.

Section HeapCells.
Context {A : Type}.

(** Reading a cell after a write, for a heap list read with a default. *)
Lemma default_lookup_insert (xs : list A) (l l' : nat) (x dflt : A) :
  default dflt (<[l := x]> xs !! l') =
  if decide (l = l' /\ (l < length xs)%nat) then x else default dflt (xs !! l').
Proof.
  destruct (decide (l = l' /\ (l < length xs)%nat)) as [[-> Hlt] | Hno].
  - rewrite list_lookup_insert_eq by exact Hlt. reflexivity.
  - destruct (decide (l = l')) as [-> | Hne].
    + rewrite list_insert_ge by lia. reflexivity.
    + rewrite list_lookup_insert_ne by exact Hne. reflexivity.
Qed.

(** Writing [f] of a cell's contents, when [f] maps the default to itself:
    the cell then reads as [f] of what it read before, also for a reference
    outside the heap. *)
Lemma default_lookup_update (xs : list A) (l : nat) (f : A -> A) (dflt : A) :
  f dflt = dflt ->
  default dflt (<[l := f (default dflt (xs !! l))]> xs !! l) = f (default dflt (xs !! l)).
Proof.
  intros Hf. rewrite default_lookup_insert.
  destruct (decide _) as [_ | Hno]; [reflexivity |].
  rewrite (lookup_ge_None_2 xs l) by lia. simpl. symmetry. exact Hf.
Qed.

Lemma default_lookup_alloc (xs : list A) (x dflt : A) :
  default dflt ((xs ++ [x]) !! length xs) = x.
Proof. rewrite list_lookup_middle by reflexivity. reflexivity. Qed.

Lemma default_lookup_alloc_other (xs : list A) (l : nat) (x dflt : A) :
  l <> length xs -> default dflt ((xs ++ [x]) !! l) = default dflt (xs !! l).
Proof.
  intros Hne. destruct (decide (l < length xs)%nat) as [Hlt | Hge].
  - rewrite lookup_app_l by exact Hlt. reflexivity.
  - rewrite !lookup_ge_None_2; [reflexivity | lia | rewrite length_app; simpl; lia].
Qed.

End HeapCells.

Section Operations.
Context `{VisualModel}.

(** [forEach] over a body that only modifies the database does not throw. *)
Lemma forEach_modify {A} (f : A -> Database -> Database) (xs : list A) (d : Database) :
  forEach (fun o => modify (f o)) xs d = (fold_left (fun d o => f o d) xs d, Ok tt).
Proof.
  revert d. induction xs as [| x xs IH]; intros d; simpl; [reflexivity |].
  unfold bind at 1, modify at 1. apply IH.
Qed.

Lemma liveTopology_deleteTopology o d :
  liveTopology (deleteTopology o d) = delete (topology_simpleName o) (liveTopology d).
Proof.
  unfold liveTopology, deleteTopology, topologyAt. simpl.
  apply (default_lookup_update (topologyMaps (heap d)) (topologyModel d)
           (delete (topology_simpleName o)) ∅).
  apply delete_empty.
Qed.

(** What a run of [deleteTopology] changes: the live topology map, from
    which the names are deleted, and nothing else. *)
Lemma deleteTopology_fold ts d :
  let d' := fold_left (fun d o => deleteTopology o d) ts d in
  (forall id, liveTopology d' !! id =
     if decide (id ∈ topologyNames ts) then None else liveTopology d !! id) /\
  materials d' = materials d /\
  temporaryObjects d' = temporaryObjects d /\
  geometryModel d' = geometryModel d /\
  topologyModel d' = topologyModel d /\
  hidden d' = hidden d /\
  counter d' = counter d /\
  dispatched d' = dispatched d /\
  nextObject d' = nextObject d /\
  geometryMaps (heap d') = geometryMaps (heap d) /\
  hiddenSets (heap d') = hiddenSets (heap d) /\
  viewSets (heap d') = viewSets (heap d) /\
  length (topologyMaps (heap d')) = length (topologyMaps (heap d)).
Proof.
  revert d. induction ts as [| o ts IH]; intros d; simpl.
  - repeat split.
  - destruct (IH (deleteTopology o d))
      as (Htopo & Hm & Ht & Hg & Htm & Hh & Hc & Hd & Hn & Hgm & Hhs & Hvs & Hlen).
    split; [| repeat split; try assumption].
    + intros id. rewrite Htopo, liveTopology_deleteTopology.
      destruct (decide (id ∈ topologyNames ts)) as [Hin | Hnin].
      * rewrite decide_True; [reflexivity | right; exact Hin].
      * destruct (decide (id = topology_simpleName o)) as [-> | Hne].
        -- rewrite lookup_delete_eq. rewrite decide_True; [reflexivity | left].
        -- rewrite lookup_delete_ne by congruence.
           rewrite decide_False; [reflexivity |].
           intros Hin. apply elem_of_cons in Hin as [? | ?]; contradiction.
    + rewrite Hlen. simpl. apply length_insert.
Qed.

Lemma removeTopologyItems_eq parent d :
  removeTopologyItems parent d =
  (fold_left (fun d o => deleteTopology o d) (visual.traverse parent) d, Ok tt).
Proof. unfold removeTopologyItems. apply (forEach_modify deleteTopology). Qed.

(** [removeItem] never throws; what it leaves behind. *)
Lemma removeItem_spec object d :
  let d' := fst (removeItem object d) in
  snd (removeItem object d) = Ok tt /\
  liveGeometry d' = JSMap.delete (visual.simpleName object) (liveGeometry d) /\
  (forall id, liveTopology d' !! id =
     if decide (id ∈ topologyNames (visual.traverse object)) then None
     else liveTopology d !! id) /\
  liveHidden d' = liveHidden d ∖ {[visual.simpleName object]} /\
  dispatched d' = dispatched d ++ [objectRemoved object; sceneGraphChanged] /\
  counter d' = counter d /\
  temporaryObjects d' = temporaryObjects d /\
  viewSets (heap d') = viewSets (heap d).
Proof.
  unfold removeItem, bind, modify. rewrite removeTopologyItems_eq. simpl.
  set (d1 := withHeap _ d).
  destruct (deleteTopology_fold (visual.traverse object) d1)
    as (Htopo & Hm & Ht & Hg & Htm & Hh & Hc & Hd & Hn & Hgm & Hhs & Hvs & Hlen).
  set (d2 := fold_left _ _ d1) in *.
  repeat split.
  - change (geometryAt (heap d2) (geometryModel d2)
            = JSMap.delete (visual.simpleName object) (liveGeometry d)).
    unfold geometryAt. rewrite Hg, Hgm.
    apply (default_lookup_update (geometryMaps (heap d)) (geometryModel d)
             (JSMap.delete (visual.simpleName object)) JSMap.empty).
    reflexivity.
  - intros id. change (liveTopology d2 !! id =
      if decide (id ∈ topologyNames (visual.traverse object)) then None
      else liveTopology d1 !! id).
    apply Htopo.
  - change (default ∅ (<[hidden d2 := liveHidden d2 ∖ {[visual.simpleName object]}]>
                         (hiddenSets (heap d2)) !! hidden d2)
            = liveHidden d ∖ {[visual.simpleName object]}).
    unfold liveHidden, hiddenAt. rewrite Hh, Hhs.
    apply (default_lookup_update (hiddenSets (heap d)) (hidden d)
             (fun s => s ∖ {[visual.simpleName object]}) ∅).
    apply empty_difference_L.
  - rewrite Hd. subst d1. simpl. rewrite <- app_assoc. reflexivity.
  - rewrite Hc. reflexivity.
  - rewrite Ht. reflexivity.
  - rewrite Hvs. reflexivity.
Qed.

(** C4, as the code has it: [removeItem] on an item that is not in the item
    map does not fail.  The call returns normally, the item map is left as
    it was and the two notifications are dispatched. *)
Theorem removeItem_absent_completes (d : Database) (object : visual.Item) :
  JSMap.get (visual.simpleName object) (liveGeometry d) = None ->
  snd (removeItem object d) = Ok tt /\
  liveGeometry (fst (removeItem object d)) = liveGeometry d /\
  dispatched (fst (removeItem object d)) =
    dispatched d ++ [objectRemoved object; sceneGraphChanged].
Proof.
  intros Habsent.
  destruct (removeItem_spec object d) as (Hok & Hgeo & _ & _ & Hsig & _).
  repeat split; [exact Hok | | exact Hsig].
  rewrite Hgeo. apply JSMapFacts.delete_absent. exact Habsent.
Qed.

Lemma sameItems_refl d : sameItems d d.
Proof. repeat split. Qed.

Lemma sameItems_trans d1 d2 d3 : sameItems d1 d2 -> sameItems d2 d3 -> sameItems d1 d3.
Proof.
  unfold sameItems. intros H12 H23.
  destruct H12 as (? & ? & ? & ? & ? & ? & ? & ? & ? & ? & ?).
  destruct H23 as (? & ? & ? & ? & ? & ? & ? & ? & ? & ? & ?).
  repeat split; congruence.
Qed.

(** [addTopologyItem] writes the topology record of its own name and a
    view set, nothing else. *)
Lemma addTopologyItem_frame parent t d :
  let d' := fst (addTopologyItem parent t d) in
  sameItems d d' /\
  (forall id, id <> topology_simpleName t -> liveTopology d' !! id = liveTopology d !! id).
Proof.
  unfold addTopologyItem.
  destruct (c3d.IsA parent); simpl; try (split; [apply sameItems_refl | reflexivity]).
  destruct (liveTopology d !! topology_simpleName t) as [td |] eqn:Hlook; simpl.
  - split; [repeat split | reflexivity].
  - split; [repeat split; simpl; rewrite length_insert; reflexivity |].
    intros id Hne. unfold liveTopology at 1. unfold topologyAt. simpl.
    rewrite default_lookup_insert. destruct (decide _) as [_ | Hno].
    + rewrite lookup_insert_ne by congruence. reflexivity.
    + reflexivity.
Qed.

Lemma forEach_addTopologyItem_frame parent ts d :
  let d' := fst (forEach (addTopologyItem parent) ts d) in
  sameItems d d' /\
  (forall id, id ∉ topologyNames ts -> liveTopology d' !! id = liveTopology d !! id).
Proof.
  revert d. induction ts as [| t ts IH]; intros d; simpl.
  - split; [apply sameItems_refl | reflexivity].
  - unfold bind.
    destruct (addTopologyItem_frame parent t d) as [Hsame Hother].
    destruct (addTopologyItem parent t d) as [d1 [[] | e]] eqn:Hstep; simpl in *.
    + destruct (IH d1) as [Hsame' Hother'].
      split; [eapply sameItems_trans; eassumption |].
      intros id Hid. apply not_elem_of_cons in Hid as [Hne Hid].
      rewrite Hother' by exact Hid. apply Hother. exact Hne.
    + split; [exact Hsame |].
      intros id Hid. apply not_elem_of_cons in Hid as [Hne Hid]. apply Hother. exact Hne.
Qed.

Lemma topologyWalk_frame model_ view_ d :
  let d' := fst (topologyWalk model_ view_ d) in
  sameItems d d' /\
  (forall id, id ∉ topologyNames (visual.traverse view_) ->
     liveTopology d' !! id = liveTopology d !! id).
Proof.
  unfold topologyWalk.
  destruct (visual.class view_); simpl;
    try (split; [apply sameItems_refl | reflexivity]).
  apply forEach_addTopologyItem_frame.
Qed.

(** [addItem], step by step. *)
Lemma addItem_unfold model_ d :
  addItem model_ d =
  match meshes (materials d) model_ (counter d) precision_distance with
  | Throw e => (withCounter (counter d + 1) d, Throw e)
  | Ok view_ =>
      match topologyWalk model_ view_ (withItem view_ model_ d) with
      | (d', Ok _) =>
          (dispatch sceneGraphChanged (dispatch (objectAdded view_) d'), Ok view_)
      | (d', Throw e) => (d', Throw e)
      end
  end.
Proof.
  unfold addItem, bind, modify. simpl.
  destruct (meshes (materials d) model_ (counter d) precision_distance) as [view_ | e];
    [| reflexivity].
  unfold topologyWalk, withItem.
  destruct (visual.class view_); reflexivity.
Qed.

(** What a successful [addItem] has done. *)
Lemma addItem_ok model_ d d1 x :
  addItem model_ d = (d1, Ok x) ->
  meshes (materials d) model_ (counter d) precision_distance = Ok x /\
  visual.simpleName x = counter d /\
  counter d1 = counter d + 1 /\
  (forall id, id ∉ topologyNames (visual.traverse x) ->
     liveTopology d1 !! id = liveTopology d !! id).
Proof.
  rewrite addItem_unfold.
  destruct (meshes _ _ _ _) as [view_ | e] eqn:Hmesh; [| discriminate].
  destruct (topologyWalk_frame model_ view_ (withItem view_ model_ d)) as [Hsame Hother].
  destruct (topologyWalk _ _ _) as [d' [[] | e]]; [| discriminate].
  intros [= <- <-]. simpl in *.
  destruct Hsame as (_ & _ & _ & _ & _ & Hc & _).
  repeat split.
  - eapply meshes_simpleName. exact Hmesh.
  - exact Hc.
  - intros id Hid. apply (Hother id Hid).
Qed.

(** The record of a new item is stored under the identity of its view. *)
Lemma addItem_lookup model_ d d1 x :
  liveInHeap d ->
  addItem model_ d = (d1, Ok x) ->
  snd (lookupItemById (visual.simpleName x) d1) = Ok {| view := x; model := model_ |}.
Proof.
  intros (Hg & _ & _) Hadd.
  pose proof (addItem_ok _ _ _ _ Hadd) as (_ & Hname & _).
  rewrite addItem_unfold in Hadd.
  destruct (meshes _ _ _ _) as [view_ | e]; [| discriminate].
  destruct (topologyWalk_frame model_ view_ (withItem view_ model_ d))
    as [(_ & _ & Hgl & _ & _ & _ & _ & _ & Hgm & _) _].
  destruct (topologyWalk _ _ _) as [d' [[] | e]]; [| discriminate].
  injection Hadd as <- <-. simpl in *.
  unfold lookupItemById, liveGeometry, geometryAt. simpl.
  rewrite Hgl, Hgm, list_lookup_insert_eq by exact Hg. simpl.
  rewrite Hname, JSMapFacts.get_set_eq. reflexivity.
Qed.

(** C5: an item [x] that [addItem] returned is removed with [removeItem x]
    from any later state of the store.  The removal does not throw; after
    it [lookupItemById] on the identity of [x] throws, and
    [lookupTopologyItemById] throws on the name of every face and edge of
    [x], which covers every topology record that [addItem] created for [x]
    (every name the topology index held after the call and not before). *)
Theorem removeItem_after_addItem (d d1 d2 : Database) (model_ : c3d.Item)
    (x : visual.Item) :
  addItem model_ d = (d1, Ok x) ->
  let d3 := fst (removeItem x d2) in
  snd (removeItem x d2) = Ok tt /\
  throws (snd (lookupItemById (visual.simpleName x) d3)) /\
  (forall t, t ∈ visual.traverse x ->
     throws (snd (lookupTopologyItemById (topology_simpleName t) d3))) /\
  (forall id, liveTopology d !! id = None -> liveTopology d1 !! id <> None ->
     throws (snd (lookupTopologyItemById id d3))).
Proof.
  intros Hadd d3.
  destruct (removeItem_spec x d2) as (Hok & Hgeo & Htopo & _).
  fold d3 in Hgeo, Htopo.
  assert (Hnames : forall id, id ∈ topologyNames (visual.traverse x) ->
            throws (snd (lookupTopologyItemById id d3))).
  { intros id Hid. unfold lookupTopologyItemById.
    rewrite Htopo, decide_True by exact Hid. simpl. eexists. reflexivity. }
  repeat split.
  - exact Hok.
  - unfold lookupItemById. rewrite Hgeo, JSMapFacts.get_delete_eq. simpl.
    eexists. reflexivity.
  - intros t Ht. apply Hnames. unfold topologyNames.
    apply list_elem_of_fmap. exists t. split; [reflexivity | exact Ht].
  - intros id Hbefore Hafter.
    destruct (decide (id ∈ topologyNames (visual.traverse x))) as [Hin | Hnin];
      [apply Hnames; exact Hin |].
    apply addItem_ok in Hadd as (_ & _ & _ & Hother).
    rewrite (Hother id Hnin) in Hafter. contradiction.
Qed.

(** C6: on a store whose item map has no key twice (a [Map] never has),
    [saveToMemento] followed at once by [restoreFromMemento] on the memento
    returned leaves [visibleObjects], every [lookupItemById] and every
    [lookupTopologyItemById] (the record and the contents of its view set)
    as they were. *)
Theorem save_restore_roundtrip (d : Database) :
  NoDup (JSMap.keys (liveGeometry d)) ->
  exists m d1 d2,
    saveToMemento d = (d1, Ok m) /\
    restoreFromMemento m d1 = (d2, Ok tt) /\
    visibleObjects d2 = visibleObjects d /\
    (forall id, snd (lookupItemById id d2) = snd (lookupItemById id d)) /\
    (forall id, snd (lookupTopologyItemById id d2) = snd (lookupTopologyItemById id d)) /\
    (forall id, observedTopology id d2 = observedTopology id d).
Proof.
  intros Hnd.
  set (m := {| memento_geometryModel := length (geometryMaps (heap d));
               memento_topologyModel := length (topologyMaps (heap d));
               memento_hidden := length (hiddenSets (heap d)) |}).
  set (d1 := fst (saveToMemento d)).
  set (d2 := fst (restoreFromMemento m d1)).
  exists m, d1, d2. split; [reflexivity |]. split; [reflexivity |].
  assert (Hgeo : liveGeometry d2 = liveGeometry d).
  { unfold liveGeometry at 1. unfold geometryAt. simpl.
    rewrite default_lookup_alloc. apply JSMapFacts.copy_id. exact Hnd. }
  assert (Htopo : liveTopology d2 = liveTopology d).
  { unfold liveTopology at 1. unfold topologyAt at 1. simpl.
    rewrite default_lookup_alloc. reflexivity. }
  assert (Hhid : liveHidden d2 = liveHidden d).
  { unfold liveHidden at 1. unfold hiddenAt at 1. simpl.
    rewrite default_lookup_alloc. reflexivity. }
  assert (Hlook : forall id,
            snd (lookupTopologyItemById id d2) = snd (lookupTopologyItemById id d)).
  { intros id. unfold lookupTopologyItemById. rewrite Htopo.
    destruct (liveTopology d !! id); reflexivity. }
  repeat split.
  - unfold visibleObjects. rewrite Hgeo, Hhid. reflexivity.
  - intros id. unfold lookupItemById. rewrite Hgeo.
    destruct (JSMap.get id (liveGeometry d)); reflexivity.
  - exact Hlook.
  - intros id. unfold observedTopology. rewrite Hlook.
    destruct (snd (lookupTopologyItemById id d)); reflexivity.
Qed.

(** *** How each operation changes the item maps and the hidden sets *)

Lemma addItem_items model_ d :
  let d' := fst (addItem model_ d) in
  counter d' = counter d + 1 /\
  geometryModel d' = geometryModel d /\
  hidden d' = hidden d /\
  hiddenSets (heap d') = hiddenSets (heap d) /\
  (geometryMaps (heap d') = geometryMaps (heap d) \/
   exists r, geometryMaps (heap d') =
     <[geometryModel d := JSMap.set (counter d) r (liveGeometry d)]>
       (geometryMaps (heap d))).
Proof.
  rewrite addItem_unfold.
  destruct (meshes _ _ _ _) as [view_ | e]; simpl.
  2:{ repeat split. left. reflexivity. }
  destruct (topologyWalk_frame model_ view_ (withItem view_ model_ d))
    as [(_ & _ & Hg & _ & Hh & Hc & _ & _ & Hgm & Hhs & _) _].
  destruct (topologyWalk _ _ _) as [d' [[] | e]]; simpl in *;
    (repeat split; [exact Hc | exact Hg | exact Hh | exact Hhs |]);
    right; eexists; exact Hgm.
Qed.

Lemma removeItem_items object d :
  let d' := fst (removeItem object d) in
  counter d' = counter d /\
  geometryModel d' = geometryModel d /\
  hidden d' = hidden d /\
  geometryMaps (heap d') =
    <[geometryModel d := JSMap.delete (visual.simpleName object) (liveGeometry d)]>
      (geometryMaps (heap d)) /\
  hiddenSets (heap d') =
    <[hidden d := liveHidden d ∖ {[visual.simpleName object]}]> (hiddenSets (heap d)).
Proof.
  unfold removeItem, bind, modify. rewrite removeTopologyItems_eq. simpl.
  set (d1 := withHeap _ d).
  destruct (deleteTopology_fold (visual.traverse object) d1)
    as (_ & _ & _ & Hg & _ & Hh & Hc & _ & _ & Hgm & Hhs & _).
  set (d2 := fold_left _ _ d1) in *.
  repeat split; try assumption.
  unfold liveHidden, hiddenAt. rewrite Hh, Hhs. reflexivity.
Qed.

Lemma hiddenWithin_geometry gm hs g m :
  hiddenWithin gm hs ->
  (forall id, JSMap.has id (default JSMap.empty (gm !! g)) = true -> JSMap.has id m = true) ->
  hiddenWithin (<[g := m]> gm) hs.
Proof.
  intros Hin Hm i id Hid. rewrite default_lookup_insert.
  destruct (decide _) as [[-> _] | _]; [apply Hm |]; apply Hin; exact Hid.
Qed.

Lemma hiddenWithin_hidden gm hs h s :
  hiddenWithin gm hs ->
  (forall id, id ∈ s -> JSMap.has id (default JSMap.empty (gm !! h)) = true) ->
  hiddenWithin gm (<[h := s]> hs).
Proof.
  intros Hin Hs i id. rewrite default_lookup_insert.
  destruct (decide _) as [[-> _] | _]; [apply Hs | apply Hin].
Qed.

Lemma hiddenWithin_alloc gm hs m s :
  length gm = length hs ->
  hiddenWithin gm hs ->
  (forall id, id ∈ s -> JSMap.has id m = true) ->
  hiddenWithin (gm ++ [m]) (hs ++ [s]).
Proof.
  intros Hlen Hin Hs i id.
  destruct (decide (i = length hs)) as [-> | Hne].
  - rewrite default_lookup_alloc, <- Hlen, default_lookup_alloc. apply Hs.
  - rewrite !default_lookup_alloc_other by congruence. apply Hin.
Qed.

Lemma paired_start mats : paired (start mats).
Proof.
  repeat split; simpl; [constructor |].
  intros i id. destruct i as [| i]; simpl; intros Hid; apply elem_of_empty in Hid; contradiction.
Qed.

Lemma paired_addItem s model_ :
  paired s -> paired (afterAdd s (addItem model_ (database s))).
Proof.
  intros (Hlen & Hdiag & Hmem & Hin).
  destruct (addItem_items model_ (database s)) as (_ & Hg & Hh & Hhs & Hgm).
  assert (Hd : paired (withDatabase (fst (addItem model_ (database s))) s)).
  { unfold paired. simpl. rewrite Hg, Hh, Hhs. repeat split; try assumption.
    - destruct Hgm as [-> | [r ->]]; [exact Hlen | rewrite length_insert; exact Hlen].
    - destruct Hgm as [-> | [r ->]]; [exact Hin |].
      apply hiddenWithin_geometry; [exact Hin |].
      intros id Hid. rewrite JSMapFacts.has_set. apply orb_true_iff. right. exact Hid. }
  destruct (addItem model_ (database s)) as [d' [v | e]]; exact Hd.
Qed.

Lemma paired_sceneRemove s o :
  paired s -> paired (withDatabase (sceneRemove o (database s)) s).
Proof. intros Hp. exact Hp. Qed.

Lemma paired_step s op :
  paired s ->
  match op with
  | Hide item => JSMap.has (visual.simpleName item) (liveGeometry (database s)) = true
  | _ => True
  end ->
  paired (step s op).
Proof.
  intros Hp Hguard. destruct op as [model_ | object | n | n | object | item | item | | n]; simpl.
  - apply paired_addItem. exact Hp.
  - unfold addTemporaryItem, bind.
    destruct (meshes _ _ _ _); exact Hp.
  - destruct (temporaries s !! n); exact Hp.
  - destruct (temporaries s !! n) as [t |]; [| exact Hp].
    apply (paired_addItem (withDatabase (sceneRemove (temporary_mesh t) (database s)) s)).
    exact Hp.
  - destruct Hp as (Hlen & Hdiag & Hmem & Hin).
    destruct (removeItem_items object (database s)) as (_ & Hg & Hh & Hgm & Hhs).
    unfold paired. simpl. rewrite Hg, Hh, Hgm, Hhs, !length_insert.
    repeat split; try assumption.
    rewrite <- Hdiag. intros i id.
    rewrite !default_lookup_insert.
    destruct (decide _) as [[-> Hlt] | Hno].
    + rewrite decide_True by (split; [reflexivity | lia]).
      intros Hid. apply elem_of_difference in Hid as [Hid Hne].
      rewrite JSMapFacts.has_delete_ne.
      * unfold liveGeometry, geometryAt. rewrite Hdiag. apply (Hin _ _ Hid).
      * intros Heq. apply Hne. apply elem_of_singleton. symmetry. exact Heq.
    + rewrite decide_False by (intros [Heq Hlt]; apply Hno; split; [exact Heq | lia]).
      apply Hin.
  - destruct Hp as (Hlen & Hdiag & Hmem & Hin).
    unfold paired. simpl. rewrite length_insert. repeat split; try assumption.
    apply hiddenWithin_hidden; [exact Hin |].
    intros id Hid. apply elem_of_union in Hid as [Hid | Hid].
    + apply (Hin _ _ Hid).
    + apply elem_of_singleton in Hid as ->. rewrite <- Hdiag. exact Hguard.
  - destruct Hp as (Hlen & Hdiag & Hmem & Hin).
    unfold paired. simpl. rewrite length_insert. repeat split; try assumption.
    apply hiddenWithin_hidden; [exact Hin |].
    intros id Hid. apply elem_of_difference in Hid as [Hid _]. apply (Hin _ _ Hid).
  - destruct Hp as (Hlen & Hdiag & Hmem & Hin).
    unfold paired. simpl. rewrite !length_app. repeat split; try assumption.
    + simpl. lia.
    + apply Forall_app. split; [exact Hmem |].
      constructor; [simpl; exact Hlen | constructor].
    + apply hiddenWithin_alloc; [exact Hlen | exact Hin |].
      intros id Hid. rewrite JSMapFacts.has_copy.
      unfold liveGeometry, geometryAt. rewrite Hdiag. apply (Hin _ _ Hid).
  - destruct (mementos s !! n) as [m |] eqn:Hm; [| exact Hp].
    destruct Hp as (Hlen & Hdiag & Hmem & Hin).
    unfold paired. simpl. repeat split; try assumption.
    eapply (proj1 (Forall_forall _ _) Hmem). eapply list_elem_of_lookup_2. exact Hm.
Qed.

Lemma paired_run ops s : paired s -> hidesPresent s ops -> paired (run s ops).
Proof.
  revert s. induction ops as [| op ops IH]; intros s Hp Hguard; simpl; [exact Hp |].
  destruct Hguard as [Hop Hrest]. apply IH; [| exact Hrest].
  apply paired_step; assumption.
Qed.

(** C8, as the code has it: in every state reached from a new store by the
    public operations, [hide] being applied only to items whose identity is
    a key of the item map at the time of the call, the hidden set is a
    subset of the key set of the item map. *)
Theorem hidden_within_items (mats : MaterialDatabase) (ops : list Op) :
  hidesPresent (start mats) ops ->
  hiddenWithinItems (database (run (start mats) ops)).
Proof.
  intros Hguard.
  destruct (paired_run ops (start mats) (paired_start mats) Hguard)
    as (_ & Hdiag & _ & Hin).
  intros id Hid. unfold liveGeometry, geometryAt. rewrite Hdiag. apply (Hin _ _ Hid).
Qed.

(** *** Identities *)

Lemma StronglySorted_snoc (l : list Z) (x : Z) :
  StronglySorted Z.lt l -> Forall (fun y => y < x) l -> StronglySorted Z.lt (l ++ [x]).
Proof.
  induction l as [| a l IH]; simpl; intros Hs Hall.
  - repeat constructor.
  - apply StronglySorted_inv in Hs as [Hs Ha].
    apply Forall_cons in Hall as [Hax Hall].
    constructor; [apply IH; assumption |].
    apply Forall_app. split; [exact Ha | constructor; [exact Hax | constructor]].
Qed.

Lemma allocated_withDatabase s d :
  counter d = counter (database s) -> allocated s -> allocated (withDatabase d s).
Proof. unfold allocated, identities. simpl. intros ->. auto. Qed.

Lemma allocated_afterAdd s model_ d0 :
  counter d0 = counter (database s) ->
  allocated s -> allocated (afterAdd s (addItem model_ d0)).
Proof.
  intros Hc (Hpos & Hall & Hsorted).
  destruct (addItem_items model_ d0) as (Hnext & _).
  destruct (addItem model_ d0) as [d1 [x | e]] eqn:Hadd; simpl in *.
  - apply addItem_ok in Hadd as (_ & Hname & _).
    unfold allocated, identities in *. simpl. rewrite map_app. simpl.
    rewrite Hname, Hnext, Hc. split; [lia |]. split.
    + apply Forall_app. split.
      * eapply Forall_impl; [exact Hall |]. simpl. intros id Hid. lia.
      * constructor; [lia | constructor].
    + apply StronglySorted_snoc; [exact Hsorted |].
      eapply Forall_impl; [exact Hall |]. simpl. intros id Hid. lia.
  - unfold allocated, identities in *. simpl. rewrite Hnext, Hc.
    split; [lia |]. split; [| exact Hsorted].
    eapply Forall_impl; [exact Hall |]. simpl. intros id Hid. lia.
Qed.

Lemma allocated_step s op : allocated s -> allocated (step s op).
Proof.
  intros Ha. destruct op as [model_ | object | n | n | object | item | item | | n]; simpl.
  - apply allocated_afterAdd; [reflexivity | exact Ha].
  - unfold addTemporaryItem, bind. destruct (meshes _ _ _ _); exact Ha.
  - destruct (temporaries s !! n); exact Ha.
  - destruct (temporaries s !! n) as [t |]; [| exact Ha].
    apply allocated_afterAdd; [reflexivity | exact Ha].
  - apply allocated_withDatabase; [| exact Ha].
    apply (removeItem_items object (database s)).
  - exact Ha.
  - exact Ha.
  - exact Ha.
  - destruct (mementos s !! n); exact Ha.
Qed.

Lemma allocated_run ops s : allocated s -> allocated (run s ops).
Proof.
  revert s. induction ops as [| op ops IH]; intros s Ha; simpl; [exact Ha |].
  apply IH. apply allocated_step. exact Ha.
Qed.

(** C7: whatever operations a client runs on a new store, the identities of
    the items its successful [addItem] calls returned (those made through
    [commit] included) are non-negative and strictly increasing in the order
    of the calls; so no two of them are equal, and an identity is not handed
    out again after its item is removed. *)
Theorem addItem_identities_fresh (mats : MaterialDatabase) (ops : list Op) :
  StronglySorted Z.lt (identities (run (start mats) ops)) /\
  Forall (fun id => 0 <= id) (identities (run (start mats) ops)) /\
  NoDup (identities (run (start mats) ops)).
Proof.
  assert (Hstart : allocated (start mats)).
  { unfold allocated, identities. simpl. split; [lia |]. split; constructor. }
  destruct (allocated_run ops (start mats) Hstart) as (_ & Hall & Hsorted).
  split; [exact Hsorted |]. split.
  - eapply Forall_impl; [exact Hall |]. simpl. intros id Hid. lia.
  - clear Hall. induction Hsorted as [| a l Hs IH Ha]; [constructor |].
    apply NoDup_cons. split; [| exact IH].
    intros Hin. apply (proj1 (Forall_forall _ _) Ha) in Hin. lia.
Qed.

(** *** A memento that has not been restored is isolated from the store *)

Lemma saveToMemento_detached d :
  liveInHeap d ->
  let d1 := fst (saveToMemento d) in
  exists m, snd (saveToMemento d) = Ok m /\ detached d1 m /\
    mementoContents (heap d1) m =
      (JSMap.copy (liveGeometry d), topologyRecord (heap d) <$> liveTopology d, liveHidden d) /\
    (forall id td, topologyAt (heap d1) (memento_topologyModel m) !! id = Some td ->
       liveTopology d !! id = Some td) /\
    liveTopology d1 = liveTopology d.
Proof.
  intros (Hg & Ht & Hh). eexists. split; [reflexivity |]. split; [| split; [| split]].
  - unfold detached. simpl. repeat split; lia.
  - unfold mementoContents, geometryAt, topologyAt, hiddenAt. simpl.
    rewrite !default_lookup_alloc. reflexivity.
  - intros id td. unfold topologyAt at 1. simpl. rewrite default_lookup_alloc.
    intros Hlook. exact Hlook.
  - unfold liveTopology at 1. unfold topologyAt at 1. simpl.
    rewrite lookup_app_l by exact Ht. reflexivity.
Qed.

Lemma hide_keeps_memento item d m :
  detached d m ->
  mementoContents (heap (fst (hide item d))) m = mementoContents (heap d) m.
Proof.
  intros (_ & _ & Hh). unfold mementoContents, hiddenAt. simpl.
  rewrite list_lookup_insert_ne by congruence. reflexivity.
Qed.

Lemma unhide_keeps_memento item d m :
  detached d m ->
  mementoContents (heap (fst (unhide item d))) m = mementoContents (heap d) m.
Proof.
  intros (_ & _ & Hh). unfold mementoContents, hiddenAt. simpl.
  rewrite list_lookup_insert_ne by congruence. reflexivity.
Qed.

Lemma deleteTopology_fold_others ts d l :
  l <> topologyModel d ->
  topologyMaps (heap (fold_left (fun d o => deleteTopology o d) ts d)) !! l
  = topologyMaps (heap d) !! l.
Proof.
  intros Hl. revert d Hl. induction ts as [| o ts IH]; intros d Hl; simpl; [reflexivity |].
  rewrite IH by exact Hl. simpl. apply list_lookup_insert_ne. congruence.
Qed.

Lemma removeItem_keeps_memento object d m :
  detached d m ->
  mementoContents (heap (fst (removeItem object d))) m = mementoContents (heap d) m.
Proof.
  intros (Hg & Ht & Hh).
  destruct (removeItem_items object d) as (_ & _ & _ & Hgm & Hhs).
  destruct (removeItem_spec object d) as (_ & _ & _ & _ & _ & _ & _ & Hvs).
  assert (Htm : topologyMaps (heap (fst (removeItem object d))) !! memento_topologyModel m
                = topologyMaps (heap d) !! memento_topologyModel m).
  { unfold removeItem, bind, modify. rewrite removeTopologyItems_eq. simpl.
    rewrite deleteTopology_fold_others by exact Ht. reflexivity. }
  unfold mementoContents, geometryAt, topologyAt, hiddenAt, topologyRecord, viewsAt.
  rewrite Hgm, Hhs, Hvs, Htm.
  rewrite !list_lookup_insert_ne by congruence. reflexivity.
Qed.

(** One step of the topology walk changes no view set below [n], provided
    the record it finds under the name, if any, has its view set at [n] or
    above; and it changes no topology map but the live one. *)
Lemma addTopologyItem_views parent t (n : nat) d :
  (n <= length (viewSets (heap d)))%nat ->
  (forall td, liveTopology d !! topology_simpleName t = Some td ->
     (n <= topology_view td)%nat) ->
  let d' := fst (addTopologyItem parent t d) in
  (n <= length (viewSets (heap d')))%nat /\
  (forall l, (l < n)%nat -> viewSets (heap d') !! l = viewSets (heap d) !! l) /\
  (forall l, l <> topologyModel d ->
     topologyMaps (heap d') !! l = topologyMaps (heap d) !! l) /\
  (forall id td, liveTopology d' !! id = Some td ->
     liveTopology d !! id = Some td \/ (n <= topology_view td)%nat).
Proof.
  intros Hn Hhit. unfold addTopologyItem.
  destruct (c3d.IsA parent); simpl; try solve [repeat split; auto].
  destruct (liveTopology d !! topology_simpleName t) as [td |] eqn:Hlook; simpl.
  - specialize (Hhit td eq_refl). repeat split.
    + rewrite length_insert. exact Hn.
    + intros l Hl. apply list_lookup_insert_ne. lia.
    + auto.
  - repeat split.
    + rewrite length_insert, length_app. simpl. lia.
    + intros l Hl. rewrite list_lookup_insert_ne by lia. apply lookup_app_l. lia.
    + intros l Hl. apply list_lookup_insert_ne. congruence.
    + intros id td. unfold liveTopology at 1. unfold topologyAt. simpl.
      rewrite default_lookup_insert. destruct (decide _) as [_ | _]; [| auto].
      destruct (decide (id = topology_simpleName t)) as [-> | Hne].
      * rewrite lookup_insert_eq. intros [= <-]. right. simpl. exact Hn.
      * rewrite lookup_insert_ne by congruence. auto.
Qed.

Lemma forEach_addTopologyItem_views parent ts (n : nat) d :
  (n <= length (viewSets (heap d)))%nat ->
  (forall t td, t ∈ ts -> liveTopology d !! topology_simpleName t = Some td ->
     (n <= topology_view td)%nat) ->
  let d' := fst (forEach (addTopologyItem parent) ts d) in
  (forall l, (l < n)%nat -> viewSets (heap d') !! l = viewSets (heap d) !! l) /\
  (forall l, l <> topologyModel d ->
     topologyMaps (heap d') !! l = topologyMaps (heap d) !! l).
Proof.
  revert d. induction ts as [| t ts IH]; intros d Hn Hhit; simpl; [auto |].
  unfold bind.
  destruct (addTopologyItem_views parent t n d Hn) as (Hn' & Hvs & Htm & Hlive).
  { intros td. apply Hhit. left. }
  destruct (addTopologyItem_frame parent t d) as [(_ & _ & _ & Hloc & _) _].
  destruct (addTopologyItem parent t d) as [d1 [[] | e]]; simpl in *; [| auto].
  destruct (IH d1 Hn') as [Hvs' Htm'].
  { intros t' td Ht' Hlook. apply Hlive in Hlook as [Hlook | Hge]; [| exact Hge].
    eapply Hhit; [right; exact Ht' | exact Hlook]. }
  split.
  - intros l Hl. rewrite Hvs' by exact Hl. apply Hvs. exact Hl.
  - intros l Hl. rewrite Htm' by congruence. apply Htm. exact Hl.
Qed.

Lemma addItem_keeps_memento model_ d m :
  detached d m ->
  (forall id td, topologyAt (heap d) (memento_topologyModel m) !! id = Some td ->
     (topology_view td < length (viewSets (heap d)))%nat) ->
  freshNames model_ d ->
  mementoContents (heap (fst (addItem model_ d))) m = mementoContents (heap d) m.
Proof.
  intros (Hg & Ht & Hh) Hviews Hfresh.
  destruct (addItem_items model_ d) as (_ & _ & _ & Hhs & Hgm).
  assert (Hgeo : geometryMaps (heap (fst (addItem model_ d))) !! memento_geometryModel m
                 = geometryMaps (heap d) !! memento_geometryModel m).
  { destruct Hgm as [-> | [r ->]]; [reflexivity |].
    apply list_lookup_insert_ne. congruence. }
  assert (Hwalk :
    (forall l, (l < length (viewSets (heap d)))%nat ->
       viewSets (heap (fst (addItem model_ d))) !! l = viewSets (heap d) !! l) /\
    topologyMaps (heap (fst (addItem model_ d))) !! memento_topologyModel m
      = topologyMaps (heap d) !! memento_topologyModel m).
  { rewrite addItem_unfold.
    destruct (meshes _ _ _ _) as [view_ | e] eqn:Hmesh; [| simpl; auto].
    specialize (Hfresh view_ Hmesh).
    assert (Hw : let d' := fst (topologyWalk model_ view_ (withItem view_ model_ d)) in
              (forall l, (l < length (viewSets (heap d)))%nat ->
                 viewSets (heap d') !! l = viewSets (heap d) !! l) /\
              (forall l, l <> topologyModel d ->
                 topologyMaps (heap d') !! l = topologyMaps (heap d) !! l)).
    { unfold topologyWalk. destruct (visual.class view_); simpl; auto.
      apply (forEach_addTopologyItem_views model_ (visual.traverse view_)
               (length (viewSets (heap d))) (withItem view_ model_ d)); [simpl; lia |].
      intros t td Hin Hlook.
      change (liveTopology (withItem view_ model_ d)) with (liveTopology d) in Hlook.
      rewrite (Hfresh t Hin) in Hlook. discriminate Hlook. }
    destruct (topologyWalk _ _ _) as [d' [[] | e]]; simpl in *;
      (split; [apply Hw | apply Hw; exact Ht]). }
  destruct Hwalk as [Hvs Htm].
  unfold mementoContents, geometryAt, topologyAt, hiddenAt.
  rewrite Hgeo, Hhs, Htm. f_equal. f_equal.
  apply map_fmap_ext. intros id td Hlook.
  unfold topologyRecord, viewsAt. rewrite Hvs; [reflexivity |].
  eapply Hviews. unfold topologyAt. exact Hlook.
Qed.

(** After [saveToMemento], whatever the store does next by [addItem],
    [removeItem], [hide] or [unhide] leaves the contents of the memento as
    they were when it was taken. *)
Lemma saveToMemento_isolates d model_ object :
  liveInHeap d -> viewsInHeap d -> freshNames model_ d ->
  exists m, snd (saveToMemento d) = Ok m /\
    let d1 := fst (saveToMemento d) in
    mementoContents (heap (fst (addItem model_ d1))) m = mementoContents (heap d1) m /\
    mementoContents (heap (fst (removeItem object d1))) m = mementoContents (heap d1) m /\
    mementoContents (heap (fst (hide object d1))) m = mementoContents (heap d1) m /\
    mementoContents (heap (fst (unhide object d1))) m = mementoContents (heap d1) m.
Proof.
  intros Hlive Hviews Hfresh.
  destruct (saveToMemento_detached d Hlive) as (m & Hm & Hdet & _ & Hcopy & Hsame).
  exists m. split; [exact Hm |]. cbv zeta. repeat split.
  - apply addItem_keeps_memento; [exact Hdet | |].
    + intros id td Hlook. apply Hcopy in Hlook. apply (Hviews id td Hlook).
    + intros x Hx t Hin. rewrite Hsame. apply (Hfresh x Hx t Hin).
  - apply removeItem_keeps_memento. exact Hdet.
  - apply hide_keeps_memento. exact Hdet.
  - apply unhide_keeps_memento. exact Hdet.
Qed.

(** *** Hiding and unhiding *)

(** Hiding an item that is not hidden and unhiding it again is a no-op on
    the hidden set, on the records and on [visibleObjects]. *)
Lemma hide_unhide item d :
  visual.simpleName item ∉ liveHidden d ->
  let d' := fst (unhide item (fst (hide item d))) in
  liveHidden d' = liveHidden d /\
  liveGeometry d' = liveGeometry d /\
  liveTopology d' = liveTopology d /\
  visibleObjects d' = visibleObjects d.
Proof.
  intros Hnot. cbv zeta.
  assert (Hhid : liveHidden (fst (unhide item (fst (hide item d)))) = liveHidden d).
  { unfold unhide, hide, modify. simpl. unfold liveHidden, hiddenAt in *. simpl.
    rewrite !default_lookup_insert, length_insert.
    destruct (decide _) as [_ | _]; [| reflexivity].
    apply set_eq. intros x.
    rewrite elem_of_difference, elem_of_union, elem_of_singleton. split.
    - intros [[Hx | Hx] Hne]; [exact Hx | contradiction].
    - intros Hx. split; [left; exact Hx | intros ->; contradiction]. }
  repeat split; [exact Hhid |].
  unfold visibleObjects. rewrite Hhid. reflexivity.
Qed.

(** *** The item maps of a running store hold no key twice *)

Lemma liveGeometry_NoDup d :
  itemMapsWellFormed d -> NoDup (JSMap.keys (liveGeometry d)).
Proof.
  unfold itemMapsWellFormed, liveGeometry, geometryAt. intros Hall.
  destruct (geometryMaps (heap d) !! geometryModel d) as [m |] eqn:Hm; simpl.
  - eapply (proj1 (Forall_forall _ _) Hall). eapply list_elem_of_lookup_2. exact Hm.
  - constructor.
Qed.

Lemma itemMapsWellFormed_addItem model_ d :
  itemMapsWellFormed d -> itemMapsWellFormed (fst (addItem model_ d)).
Proof.
  intros Hall. pose proof (liveGeometry_NoDup d Hall) as Hlive.
  destruct (addItem_items model_ d) as (_ & _ & _ & _ & Hgm).
  unfold itemMapsWellFormed in *. destruct Hgm as [-> | [r ->]]; [exact Hall |].
  apply Forall_insert; [exact Hall |]. apply JSMapFacts.NoDup_keys_set. exact Hlive.
Qed.

Lemma itemMapsWellFormed_step s op :
  itemMapsWellFormed (database s) -> itemMapsWellFormed (database (step s op)).
Proof.
  intros Hall. destruct op as [model_ | object | n | n | object | item | item | | n]; simpl.
  - pose proof (itemMapsWellFormed_addItem model_ (database s) Hall) as Hadd.
    destruct (addItem model_ (database s)) as [d' [v | e]]; exact Hadd.
  - unfold addTemporaryItem, bind. destruct (meshes _ _ _ _); exact Hall.
  - destruct (temporaries s !! n); exact Hall.
  - destruct (temporaries s !! n) as [t |]; [| exact Hall].
    pose proof (itemMapsWellFormed_addItem (temporary_object t)
                  (sceneRemove (temporary_mesh t) (database s)) Hall) as Hadd.
    unfold commit, bind, modify. simpl.
    destruct (addItem _ _) as [d' [v | e]]; exact Hadd.
  - destruct (removeItem_items object (database s)) as (_ & _ & _ & Hgm & _).
    unfold itemMapsWellFormed in *. simpl. rewrite Hgm.
    apply Forall_insert; [exact Hall |]. apply JSMapFacts.NoDup_keys_delete.
    apply liveGeometry_NoDup. exact Hall.
  - exact Hall.
  - exact Hall.
  - unfold itemMapsWellFormed in *. simpl. apply Forall_app. split; [exact Hall |].
    constructor; [| constructor].
    rewrite JSMapFacts.copy_id; apply liveGeometry_NoDup; exact Hall.
  - destruct (mementos s !! n); exact Hall.
Qed.

(** In every state a client reaches from a new store, the item map has no
    key twice: the hypothesis of the save and restore round trip holds. *)
Lemma reachable_liveGeometry_NoDup mats ops :
  NoDup (JSMap.keys (liveGeometry (database (run (start mats) ops)))).
Proof.
  apply liveGeometry_NoDup.
  assert (Hstart : itemMapsWellFormed (database (start mats))).
  { unfold itemMapsWellFormed. simpl. repeat constructor. }
  revert Hstart. generalize (start mats). induction ops as [| op ops IH]; intros s Hs; simpl.
  - exact Hs.
  - apply IH. apply itemMapsWellFormed_step. exact Hs.
Qed.

(** *** No reference of a running store dangles *)

Lemma topologyAt_wellFormed h l id td :
  topologyMapsWellFormed h -> topologyAt h l !! id = Some td ->
  (topology_view td < length (viewSets h))%nat.
Proof.
  unfold topologyMapsWellFormed, topologyAt. intros Hall.
  destruct (topologyMaps h !! l) as [tmap |] eqn:Hl; simpl.
  - apply (proj1 (Forall_forall _ _) Hall tmap). eapply list_elem_of_lookup_2. exact Hl.
  - rewrite lookup_empty. discriminate.
Qed.

Lemma addTopologyItem_wellFormed parent t d :
  topologyMapsWellFormed (heap d) ->
  topologyMapsWellFormed (heap (fst (addTopologyItem parent t d))).
Proof.
  intros Hall. unfold addTopologyItem.
  destruct (c3d.IsA parent); simpl; try exact Hall.
  destruct (liveTopology d !! topology_simpleName t) as [td |] eqn:Hlook; simpl.
  - unfold topologyMapsWellFormed in *. simpl. rewrite length_insert. exact Hall.
  - unfold topologyMapsWellFormed in *. simpl.
    rewrite length_insert, length_app. simpl.
    apply Forall_insert.
    + eapply Forall_impl; [exact Hall |]. simpl. intros tmap Htmap id td Hid.
      specialize (Htmap id td Hid). lia.
    + intros id td. destruct (decide (id = topology_simpleName t)) as [-> | Hne].
      * rewrite lookup_insert_eq. intros [= <-]. simpl. lia.
      * rewrite lookup_insert_ne by congruence. intros Hid.
        pose proof (topologyAt_wellFormed (heap d) (topologyModel d) id td Hall) as Hlt.
        unfold topologyAt in *. simpl in Hid. specialize (Hlt Hid). lia.
Qed.

Lemma forEach_addTopologyItem_wellFormed parent ts d :
  topologyMapsWellFormed (heap d) ->
  topologyMapsWellFormed (heap (fst (forEach (addTopologyItem parent) ts d))).
Proof.
  revert d. induction ts as [| t ts IH]; intros d Hall; simpl; [exact Hall |].
  unfold bind. pose proof (addTopologyItem_wellFormed parent t d Hall) as Hstep.
  destruct (addTopologyItem parent t d) as [d1 [[] | e]]; simpl in *; [| exact Hstep].
  apply IH. exact Hstep.
Qed.

Lemma addItem_wellFormed model_ d :
  liveInHeap d -> topologyMapsWellFormed (heap d) ->
  let d' := fst (addItem model_ d) in
  liveInHeap d' /\ topologyMapsWellFormed (heap d') /\
  length (geometryMaps (heap d')) = length (geometryMaps (heap d)) /\
  length (topologyMaps (heap d')) = length (topologyMaps (heap d)) /\
  length (hiddenSets (heap d')) = length (hiddenSets (heap d)).
Proof.
  intros (Hg & Ht & Hh) Hall. rewrite addItem_unfold.
  destruct (meshes _ _ _ _) as [view_ | e]; simpl; [| repeat split; assumption].
  destruct (topologyWalk_frame model_ view_ (withItem view_ model_ d))
    as [(_ & _ & Hgl & Htl & Hhl & _ & _ & _ & Hgm & Hhs & Hlen) _].
  assert (Hwf : topologyMapsWellFormed
                  (heap (fst (topologyWalk model_ view_ (withItem view_ model_ d))))).
  { unfold topologyWalk. destruct (visual.class view_); simpl; try exact Hall.
    apply forEach_addTopologyItem_wellFormed. exact Hall. }
  simpl in *.
  assert (HW : let d' := fst (topologyWalk model_ view_ (withItem view_ model_ d)) in
            liveInHeap d' /\ topologyMapsWellFormed (heap d') /\
            length (geometryMaps (heap d')) = length (geometryMaps (heap d)) /\
            length (topologyMaps (heap d')) = length (topologyMaps (heap d)) /\
            length (hiddenSets (heap d')) = length (hiddenSets (heap d))).
  { cbv zeta. unfold liveInHeap. rewrite Hgl, Htl, Hhl, Hgm, Hhs, Hlen, length_insert.
    repeat split; assumption. }
  destruct (topologyWalk _ _ _) as [d' [[] | e]]; exact HW.
Qed.

Lemma mementoInHeap_lengths h h' m :
  length (geometryMaps h') = length (geometryMaps h) ->
  length (topologyMaps h') = length (topologyMaps h) ->
  length (hiddenSets h') = length (hiddenSets h) ->
  mementoInHeap h m -> mementoInHeap h' m.
Proof. unfold mementoInHeap. intros -> -> ->. auto. Qed.

Lemma wellFormed_afterAdd s model_ d0 :
  heap d0 = heap (database s) ->
  geometryModel d0 = geometryModel (database s) ->
  topologyModel d0 = topologyModel (database s) ->
  hidden d0 = hidden (database s) ->
  wellFormed s -> wellFormed (afterAdd s (addItem model_ d0)).
Proof.
  intros Hheap Hg Ht Hh (Hlive & Hmem & Hall).
  assert (Hlive0 : liveInHeap d0).
  { unfold liveInHeap. rewrite Hheap, Hg, Ht, Hh. exact Hlive. }
  assert (Hall0 : topologyMapsWellFormed (heap d0)) by (rewrite Hheap; exact Hall).
  destruct (addItem_wellFormed model_ d0 Hlive0 Hall0) as (Hl & Hw & Hlg & Hlt & Hlh).
  rewrite Hheap in Hlg, Hlt, Hlh.
  assert (Hwf : wellFormed (withDatabase (fst (addItem model_ d0)) s)).
  { split; [exact Hl |]. split; [| exact Hw]. simpl.
    eapply Forall_impl; [exact Hmem |]. intros m. apply mementoInHeap_lengths; assumption. }
  destruct (addItem model_ d0) as [d' [v | e]]; exact Hwf.
Qed.

Lemma deleteTopology_fold_wellFormed ts d :
  topologyMapsWellFormed (heap d) ->
  topologyMapsWellFormed (heap (fold_left (fun d o => deleteTopology o d) ts d)).
Proof.
  revert d. induction ts as [| o ts IH]; intros d Hall; simpl; [exact Hall |].
  apply IH. unfold topologyMapsWellFormed in *. simpl.
  apply Forall_insert; [exact Hall |].
  intros id td Hid. apply lookup_delete_Some in Hid as [_ Hid].
  apply (topologyAt_wellFormed (heap d) (topologyModel d) id td Hall Hid).
Qed.

Lemma wellFormed_step s op : wellFormed s -> wellFormed (step s op).
Proof.
  intros Hwf. destruct op as [model_ | object | n | n | object | item | item | | n]; simpl.
  - apply wellFormed_afterAdd; auto.
  - unfold addTemporaryItem, bind. destruct (meshes _ _ _ _); exact Hwf.
  - destruct (temporaries s !! n); exact Hwf.
  - destruct (temporaries s !! n) as [t |]; [| exact Hwf].
    apply (wellFormed_afterAdd s (temporary_object t)
             (sceneRemove (temporary_mesh t) (database s))); auto.
  - destruct Hwf as ((Hg & Ht & Hh) & Hmem & Hall).
    destruct (removeItem_items object (database s)) as (_ & Hgl & Hhl & Hgm & Hhs).
    destruct (removeItem_spec object (database s)) as (_ & _ & _ & _ & _ & _ & _ & Hvs).
    assert (Htop : topologyModel (fst (removeItem object (database s)))
                   = topologyModel (database s) /\
                   length (topologyMaps (heap (fst (removeItem object (database s)))))
                   = length (topologyMaps (heap (database s))) /\
                   topologyMapsWellFormed (heap (fst (removeItem object (database s))))).
    { unfold removeItem, bind, modify. rewrite removeTopologyItems_eq. simpl.
      set (d1 := withHeap _ (database s)).
      destruct (deleteTopology_fold (visual.traverse object) d1)
        as (_ & _ & _ & _ & Htm & _ & _ & _ & _ & _ & _ & Hvs' & Hlen).
      pose proof (deleteTopology_fold_wellFormed (visual.traverse object) d1 Hall) as Hw.
      repeat split; [exact Htm | exact Hlen |].
      unfold topologyMapsWellFormed in *. simpl. exact Hw. }
    destruct Htop as (Htl & Hlen & Hw).
    split; [| split]; simpl.
    + unfold liveInHeap. rewrite Hgl, Htl, Hhl, Hgm, Hhs, Hlen, !length_insert. auto.
    + eapply Forall_impl; [exact Hmem |]. intros m. apply mementoInHeap_lengths.
      * rewrite Hgm. apply length_insert.
      * exact Hlen.
      * rewrite Hhs. apply length_insert.
    + exact Hw.
  - destruct Hwf as ((Hg & Ht & Hh) & Hmem & Hall).
    split; [| split]; simpl.
    + unfold liveInHeap. simpl. rewrite length_insert. auto.
    + eapply Forall_impl; [exact Hmem |]. intros m.
      apply mementoInHeap_lengths; simpl; rewrite ?length_insert; reflexivity.
    + exact Hall.
  - destruct Hwf as ((Hg & Ht & Hh) & Hmem & Hall).
    split; [| split]; simpl.
    + unfold liveInHeap. simpl. rewrite length_insert. auto.
    + eapply Forall_impl; [exact Hmem |]. intros m.
      apply mementoInHeap_lengths; simpl; rewrite ?length_insert; reflexivity.
    + exact Hall.
  - destruct Hwf as ((Hg & Ht & Hh) & Hmem & Hall).
    split; [| split]; simpl.
    + unfold liveInHeap. simpl. rewrite !length_app. simpl. lia.
    + apply Forall_app. split.
      * eapply Forall_impl; [exact Hmem |]. intros m (Hmg & Hmt & Hmh).
        unfold mementoInHeap. simpl. rewrite !length_app. simpl. lia.
      * constructor; [| constructor].
        unfold mementoInHeap. simpl. rewrite !length_app. simpl. lia.
    + unfold topologyMapsWellFormed in *. simpl. apply Forall_app. split; [exact Hall |].
      constructor; [| constructor]. intros id td Hid.
      apply (topologyAt_wellFormed (heap (database s)) (topologyModel (database s)) id td
               Hall Hid).
  - destruct (mementos s !! n) as [m |] eqn:Hm; [| exact Hwf].
    destruct Hwf as (Hlive & Hmem & Hall).
    split; [| split]; simpl; [| exact Hmem | exact Hall].
    apply (proj1 (Forall_forall _ _) Hmem m). eapply list_elem_of_lookup_2. exact Hm.
Qed.

(** Every state a client reaches from a new store is well formed: the
    references of the store and of its mementos are in the heap, and so are
    the view sets of all topology records. *)
Lemma reachable_wellFormed mats ops :
  wellFormed (run (start mats) ops) /\
  liveInHeap (database (run (start mats) ops)) /\
  viewsInHeap (database (run (start mats) ops)).
Proof.
  assert (Hstart : wellFormed (start mats)).
  { split; [| split]; simpl.
    - unfold liveInHeap. simpl. lia.
    - constructor.
    - unfold topologyMapsWellFormed. simpl. constructor; [| constructor].
      intros id td. rewrite lookup_empty. discriminate. }
  assert (Hrun : wellFormed (run (start mats) ops)).
  { revert Hstart. generalize (start mats).
    induction ops as [| op ops IH]; intros s Hs; simpl; [exact Hs |].
    apply IH. apply wellFormed_step. exact Hs. }
  split; [exact Hrun |]. destruct Hrun as (Hlive & _ & Hall).
  split; [exact Hlive |].
  intros id td Hid. eapply topologyAt_wellFormed; [exact Hall | exact Hid].
Qed.

End Operations.

End GeometryDatabaseFacts.

(** ** The store run on examples *)

Module Scenarios.
Import GeometryDatabase GeometryDatabaseFacts Demo.

(** A solid producing two faces and four edges: after [addItem] the six
    sub-entities are in the topology index, after [removeItem] none is. *)
Lemma box_added_then_removed :
  let s1 := run session [AddItem box] in
  let s2 := run s1 [RemoveItem boxView] in
  added s1 = [boxView] /\
  find visual.Solid (database s1) = [boxView] /\
  size (liveTopology (database s1)) = 6%nat /\
  size (liveTopology (database s2)) = 0%nat /\
  find visual.Solid (database s2) = [].
Proof. vm_compute. repeat split. Qed.

(** A temporary curve is committed: the view [commit] returns is found
    among the curves with identity 0, not the sentinel -1 of the preview,
    and the scene of temporary objects is empty again. *)
Lemma temporary_committed :
  let s1 := run session [AddTemporaryItem curve] in
  let s2 := run s1 [Commit 0] in
  map (fun o => visual.simpleName (snd o)) (temporaryObjects (database s1)) = [-1] /\
  temporaryObjects (database s2) = [] /\
  added s2 = [curveView] /\
  find visual.SpaceInstance (database s2) = [curveView] /\
  visual.simpleName curveView = 0.
Proof. vm_compute. repeat split. Qed.

(** A memento taken and not restored: a solid is added and a memento
    taken; adding the solid's kernel item again, removing, hiding or
    unhiding the first view leaves the contents of the memento as they
    were. *)
Lemma memento_isolated_until_restored :
  let d := database (run session [AddItem box]) in
  exists m, snd (saveToMemento d) = Ok m /\
    let d1 := fst (saveToMemento d) in
    mementoContents (heap (fst (addItem box d1))) m = mementoContents (heap d1) m /\
    mementoContents (heap (fst (removeItem boxView d1))) m = mementoContents (heap d1) m /\
    mementoContents (heap (fst (hide boxView d1))) m = mementoContents (heap d1) m /\
    mementoContents (heap (fst (unhide boxView d1))) m = mementoContents (heap d1) m.
Proof.
  cbv zeta.
  destruct (reachable_wellFormed materials [AddItem box]) as (_ & Hlive & Hviews).
  apply (saveToMemento_isolates _ box boxView Hlive Hviews).
  intros x Hx t Hin. vm_compute in Hx. injection Hx as <-.
  apply list_elem_of_In in Hin. simpl in Hin.
  repeat (destruct Hin as [<- | Hin]; [vm_compute; reflexivity |]).
  contradiction.
Qed.

(** C3 (the code departs from the claim): [restoreFromMemento] assigns the
    memento's own collections to the store, so what the store does after a
    restore is done to the memento.  A solid is added, a memento taken and
    restored at once; hiding the solid then puts its identity into the
    memento's hidden set, and removing it empties the memento's item map
    and topology map. *)
Theorem restore_aliases_memento :
  let s := run session [AddItem box; SaveToMemento; RestoreFromMemento 0] in
  let m := {| memento_geometryModel := 1%nat; memento_topologyModel := 1%nat;
              memento_hidden := 1%nat |} in
  let hid := run s [Hide boxView] in
  let removed := run s [RemoveItem boxView] in
  mementos s = [m] /\
  elements (hiddenAt (heap (database s)) (memento_hidden m)) = [] /\
  elements (hiddenAt (heap (database hid)) (memento_hidden m)) = [0] /\
  JSMap.keys (geometryAt (heap (database s)) (memento_geometryModel m)) = [0] /\
  JSMap.keys (geometryAt (heap (database removed)) (memento_geometryModel m)) = [] /\
  size (topologyAt (heap (database s)) (memento_topologyModel m)) = 6%nat /\
  size (topologyAt (heap (database removed)) (memento_topologyModel m)) = 0%nat /\
  mementoContents (heap (database hid)) m <> mementoContents (heap (database s)) m /\
  mementoContents (heap (database removed)) m <> mementoContents (heap (database s)) m.
Proof.
  cbv zeta. repeat split; try (vm_compute; reflexivity).
  - intros Heq. apply (f_equal (fun c => elements (snd c))) in Heq.
    vm_compute in Heq. discriminate Heq.
  - intros Heq. apply (f_equal (fun c => JSMap.keys (fst (fst c)))) in Heq.
    vm_compute in Heq. discriminate Heq.
Qed.

(** C4 (the claim fails here): [stranger] is not in the item map of a new
    store, and [removeItem] on it returns without an error. *)
Lemma removeItem_absent_does_not_throw :
  JSMap.get (visual.simpleName stranger) (liveGeometry store) = None /\
  snd (removeItem stranger store) = Ok tt /\
  ~ throws (snd (removeItem stranger store)).
Proof.
  split; [reflexivity |]. split; [reflexivity |].
  intros [e He]. vm_compute in He. discriminate He.
Qed.

(** [removeItem_absent_completes] on a new store and [stranger]. *)
Lemma removeItem_absent_completes_witness :
  JSMap.get (visual.simpleName stranger) (liveGeometry store) = None /\
  snd (removeItem stranger store) = Ok tt /\
  liveGeometry (fst (removeItem stranger store)) = liveGeometry store /\
  dispatched (fst (removeItem stranger store)) =
    dispatched store ++ [objectRemoved stranger; sceneGraphChanged].
Proof.
  split; [reflexivity |].
  apply (removeItem_absent_completes store stranger). reflexivity.
Defined.

(** [removeItem_after_addItem]: the solid is added to a new store, and its
    view removed after a curve has been added and the solid hidden. *)
Lemma removeItem_after_addItem_witness :
  addItem box store = (fst (addItem box store), Ok boxView) /\
  let d2 := database (run session [AddItem box; AddItem curve; Hide boxView]) in
  let d3 := fst (removeItem boxView d2) in
  snd (removeItem boxView d2) = Ok tt /\
  throws (snd (lookupItemById (visual.simpleName boxView) d3)) /\
  (forall t, t ∈ visual.traverse boxView ->
     throws (snd (lookupTopologyItemById (topology_simpleName t) d3))) /\
  (forall id, liveTopology store !! id = None ->
     liveTopology (fst (addItem box store)) !! id <> None ->
     throws (snd (lookupTopologyItemById id d3))).
Proof.
  split; [vm_compute; reflexivity |].
  apply (removeItem_after_addItem store (fst (addItem box store))
           (database (run session [AddItem box; AddItem curve; Hide boxView]))
           box boxView).
  vm_compute. reflexivity.
Defined.

(** [save_restore_roundtrip] on a store holding a solid and a hidden curve. *)
Lemma save_restore_roundtrip_witness :
  let d := database (run session [AddItem box; AddItem curve; Hide curveView]) in
  NoDup (JSMap.keys (liveGeometry d)) /\
  exists m d1 d2,
    saveToMemento d = (d1, Ok m) /\
    restoreFromMemento m d1 = (d2, Ok tt) /\
    visibleObjects d2 = visibleObjects d /\
    (forall id, snd (lookupItemById id d2) = snd (lookupItemById id d)) /\
    (forall id, snd (lookupTopologyItemById id d2) = snd (lookupTopologyItemById id d)) /\
    (forall id, observedTopology id d2 = observedTopology id d).
Proof.
  assert (Hnd : NoDup (JSMap.keys (liveGeometry
            (database (run session [AddItem box; AddItem curve; Hide curveView]))))).
  { apply (@bool_decide_unpack _ (NoDup_dec _)). vm_compute. exact I. }
  split; [exact Hnd |].
  apply (save_restore_roundtrip _ Hnd).
Defined.

(** C8 (the claim fails here): a solid is added, removed, and its view is
    then hidden; the hidden set holds identity 0, the item map does not. *)
Lemma hidden_outside_items :
  let d := database (run session [AddItem box; RemoveItem boxView; Hide boxView]) in
  elements (liveHidden d) = [0] /\
  JSMap.keys (liveGeometry d) = [] /\
  ~ hiddenWithinItems d.
Proof.
  cbv zeta. split; [vm_compute; reflexivity |]. split; [vm_compute; reflexivity |].
  intros Hin. specialize (Hin 0).
  assert (Hid : 0 ∈ liveHidden
            (database (run session [AddItem box; RemoveItem boxView; Hide boxView]))).
  { apply elem_of_elements.
    replace (elements _) with [0] by (vm_compute; reflexivity).
    apply elem_of_cons. left. reflexivity. }
  apply Hin in Hid. vm_compute in Hid. discriminate Hid.
Qed.

(** [hidden_within_items] on a run that hides a present item, takes a
    memento, removes the item and restores the memento. *)
Lemma hidden_within_items_witness :
  let ops := [AddItem box; Hide boxView; SaveToMemento; AddTemporaryItem curve;
              RemoveItem boxView; Commit 0; RestoreFromMemento 0] in
  hidesPresent (start materials) ops /\
  hiddenWithinItems (database (run (start materials) ops)).
Proof.
  assert (Hguard : hidesPresent (start materials)
            [AddItem box; Hide boxView; SaveToMemento; AddTemporaryItem curve;
             RemoveItem boxView; Commit 0; RestoreFromMemento 0]).
  { vm_compute. repeat split. }
  split; [exact Hguard |].
  apply (hidden_within_items materials _ Hguard).
Defined.

(** [mesh_failure_commits_nothing] on a store holding a solid and a kernel
    item whose tessellation raises. *)
Lemma mesh_failure_commits_nothing_witness :
  let d := database (run session [AddItem box]) in
  let obj := failing c3d.Solid in
  let e := mkError "kernel" in
  meshes (GeometryDatabase.materials d) obj (counter d) precision_distance = Throw e /\
  meshes (GeometryDatabase.materials d) obj (-1) [(0.005, 1)]%Q = Throw e /\
  (addItem obj d = (withCounter (counter d + 1) d, Throw e) /\
   heap (fst (addItem obj d)) = heap d /\
   liveGeometry (fst (addItem obj d)) = liveGeometry d /\
   liveTopology (fst (addItem obj d)) = liveTopology d /\
   liveHidden (fst (addItem obj d)) = liveHidden d /\
   temporaryObjects (fst (addItem obj d)) = temporaryObjects d /\
   dispatched (fst (addItem obj d)) = dispatched d) /\
  addTemporaryItem obj d = (d, Throw e).
Proof.
  cbv zeta.
  split; [reflexivity |]. split; [reflexivity |]. split.
  - apply (proj1 (mesh_failure_commits_nothing
                    (database (run session [AddItem box])) (failing c3d.Solid)
                    (mkError "kernel"))).
    reflexivity.
  - apply (proj2 (mesh_failure_commits_nothing
                    (database (run session [AddItem box])) (failing c3d.Solid)
                    (mkError "kernel"))).
    reflexivity.
Defined.

(** [region_build_one_buffer_per_level] on a region with one buffer. *)
Lemma region_build_one_buffer_per_level_witness :
  let builder := visual.newBuilder visual.PlaneInstance in
  let mesh_ := tessellation [] [0] in
  c3d.IsA plane = c3d.PlaneInstance /\
  c3d.CreateMesh_async plane 0.1%Q = Ok mesh_ /\
  (throws (object2mesh materials builder plane 0 0.1%Q 50%Q)
     <-> length (c3d.GetBuffers mesh_) <> 1%nat) /\
  (forall v, meshes materials plane 0 precision_distance = Ok v ->
     Forall2 (regionLevelOf materials plane) (visual.lods v) precision_distance).
Proof.
  cbv zeta. split; [reflexivity |]. split; [reflexivity |].
  apply (region_build_one_buffer_per_level materials
           (visual.newBuilder visual.PlaneInstance) plane 0 0.1%Q 50%Q
           (tessellation [] [0]) precision_distance); reflexivity.
Defined.

End Scenarios.
